(** * The archive.org collector: schemas, identifier resolution, registration
      and batch download, embedded from [collectors/archive.ts].

    JavaScript strings are sequences of code units; this development keeps
    the code units [U+0000 .. U+00FF] as [ascii] characters of a [string].
    JavaScript numbers are binary64 values, taken from [SpecFloat]. *)

From Stdlib Require Import String Ascii List ZArith Bool Lia.
From Stdlib Require Import SpecFloat DecimalString.
Import ListNotations.

Local Open Scope string_scope.

(** ** Strings *)

Module JsString.

(** [s.startsWith(p)], returning what follows the prefix. *)
Fixpoint strip_prefix (p s : string) : option string :=
  match p with
  | EmptyString => Some s
  | String a p' =>
      match s with
      | EmptyString => None
      | String b s' => if Ascii.eqb a b then strip_prefix p' s' else None
      end
  end.

(** The first [n] code units of [s] ([s.slice(0, n)]). *)
Fixpoint take (n : nat) (s : string) : string :=
  match n, s with
  | S n', String c s' => String c (take n' s')
  | _, _ => EmptyString
  end.

(** [s.slice(n)]. *)
Fixpoint drop (n : nat) (s : string) : string :=
  match n, s with
  | S n', String _ s' => drop n' s'
  | _, _ => s
  end.

(** [s.split(sep)] for a one-character separator: the pieces between
    the separators, never an empty array. *)
Fixpoint split (sep : ascii) (s : string) : list string :=
  match s with
  | EmptyString => [EmptyString]
  | String c s' =>
      if Ascii.eqb c sep then EmptyString :: split sep s'
      else match split sep s' with
           | [] => [String c EmptyString]
           | piece :: pieces => String c piece :: pieces
           end
  end.

(** [Array.prototype.pop]'s return value: the last element, or
    [undefined] for an empty array.  *)
Definition pop (l : list string) : option string :=
  match rev l with
  | [] => None
  | x :: _ => Some x
  end.

(** How a template literal prints an optional string. *)
Definition interpolate (o : option string) : string :=
  match o with
  | Some s => s
  | None => "undefined"
  end.

(** Decimal rendering of a length or counter inside a template literal. *)
Definition of_nat (n : nat) : string :=
  NilEmpty.string_of_uint (Nat.to_uint n).

(** Every character of [s] differs from [c]. *)
Fixpoint lacks (c : ascii) (s : string) : bool :=
  match s with
  | EmptyString => true
  | String a s' => negb (Ascii.eqb a c) && lacks c s'
  end.

(** How many leading characters of [s] differ from [c]. *)
Fixpoint span_len (c : ascii) (s : string) : nat :=
  match s with
  | EmptyString => 0
  | String a s' => if Ascii.eqb a c then 0 else S (span_len c s')
  end.

End JsString.

(** ** Numbers *)

Module Number.

(** A JavaScript number: a binary64 value with a single NaN. *)
Definition number : Type := spec_float.

Definition NaN : number := S754_nan.

(** The double nearest to a mathematical integer (ties to even). *)
Definition of_Z (z : Z) : number := binary_normalize 53 1024 z 0 false.

Definition isNaN (n : number) : bool :=
  match n with
  | S754_nan => true
  | _ => false
  end.

(** The mathematical integer a number denotes, when it denotes one
    ([Number.isInteger] together with the value). *)
Definition to_Z (n : number) : option Z :=
  match n with
  | S754_zero _ => Some 0%Z
  | S754_finite s m e =>
      let mag :=
        match e with
        | Z0 => Some (Zpos m)
        | Zpos p => Some (Z.shiftl (Zpos m) (Zpos p))
        | Zneg p =>
            if Z.eqb (Z.land (Zpos m) (Z.ones (Zpos p))) 0
            then Some (Z.shiftr (Zpos m) (Zpos p))
            else None
        end in
      option_map (fun v => if s then Z.opp v else v) mag
  | _ => None
  end.

Definition isInteger (n : number) : bool :=
  match to_Z n with
  | Some _ => true
  | None => false
  end.

(** [StrWhiteSpaceChar] among the code units kept here: TAB, LF, VT, FF,
    CR, SP and NBSP. *)
Definition is_white_space (c : ascii) : bool :=
  let n := nat_of_ascii c in
  (Nat.leb 9 n && Nat.leb n 13) || Nat.eqb n 32 || Nat.eqb n 160.

Fixpoint trim_start (s : string) : string :=
  match s with
  | String c s' => if is_white_space c then trim_start s' else s
  | EmptyString => s
  end.

(** The value of a character as a digit: [0-9], then [a-z] or [A-Z]
    for ten to thirty-five. *)
Definition digit_value (c : ascii) : option Z :=
  let n := Z.of_nat (nat_of_ascii c) in
  if (48 <=? n)%Z && (n <=? 57)%Z then Some (n - 48)%Z
  else if (97 <=? n)%Z && (n <=? 122)%Z then Some (n - 87)%Z
  else if (65 <=? n)%Z && (n <=? 90)%Z then Some (n - 55)%Z
  else None.

(** The longest prefix of radix-[R] digits, most significant first. *)
Fixpoint leading_digits (R : Z) (s : string) : list Z :=
  match s with
  | EmptyString => []
  | String c s' =>
      match digit_value c with
      | Some d => if (d <? R)%Z then d :: leading_digits R s' else []
      | None => []
      end
  end.

Definition digits_value (R : Z) (ds : list Z) : Z :=
  fold_left (fun acc d => (acc * R + d)%Z) ds 0%Z.

(** [parseInt(string, radix)] for a string argument and an integer
    radix, step by step as ECMA-262 lists them. *)
Definition parseInt (input : string) (radix : Z) : number :=
  let S0 := trim_start input in
  let '(negative, S1) :=
    match S0 with
    | String "-" r => (true, r)
    | String "+" r => (false, r)
    | _ => (false, S0)
    end in
  let stripPrefix := Z.eqb radix 0 || Z.eqb radix 16 in
  if negb (Z.eqb radix 0) && ((radix <? 2)%Z || (36 <? radix)%Z) then NaN
  else
    let R0 := if Z.eqb radix 0 then 10%Z else radix in
    let '(R, S2) :=
      if stripPrefix then
        match S1 with
        | String "0" (String "x" r) => (16%Z, r)
        | String "0" (String "X" r) => (16%Z, r)
        | _ => (R0, S1)
        end
      else (R0, S1) in
    match leading_digits R S2 with
    | [] => NaN
    | ds =>
        let mathInt := digits_value R ds in
        if Z.eqb mathInt 0 then S754_zero negative
        else of_Z (if negative then Z.opp mathInt else mathInt)
    end.

End Number.
Export Number.

(** ** Regular expressions *)

Module Regex.

(** The fragment of the pattern language the collector's two literals
    use.  Without the [m] flag [^] and [$] hold only at the two ends of
    the input. *)
Inductive regex : Type :=
| Empty
| Chr (c : ascii)
| NotChr (c : ascii)
| Seq (r1 r2 : regex)
| Alt (r1 r2 : regex)
| Plus (r : regex)
| Group (r : regex)
| Bol
| Eol.

(** A run of literal characters. *)
Fixpoint lit (s : string) : regex :=
  match s with
  | EmptyString => Empty
  | String c s' => Seq (Chr c) (lit s')
  end.

(** A matcher state: the index reached, the input from there on, and
    the captures closed so far (in closing order, which is the group
    numbering when groups are neither nested nor repeated). *)
Record mstate : Type := mkState {
  pos : nat;
  rest : string;
  caps : list string
}.

Definition cont : Type := mstate -> option mstate.

(** ECMA-262 RepeatMatcher once the minimum is met: greedy, and an
    iteration that consumes nothing is not considered.  Every further
    iteration consumes input, so the length of what is left bounds
    their number. *)
Fixpoint repeat0 (m : mstate -> cont -> option mstate) (k : cont)
    (fuel : nat) (x : mstate) : option mstate :=
  match fuel with
  | O => k x
  | S fuel' =>
      match m x (fun y => if Nat.eqb (pos y) (pos x) then None
                          else repeat0 m k fuel' y) with
      | Some z => Some z
      | None => k x
      end
  end.

(** Backtracking matcher in continuation-passing style. *)
Fixpoint run (r : regex) (x : mstate) (k : cont) {struct r}
    : option mstate :=
  match r with
  | Empty => k x
  | Chr c =>
      match rest x with
      | String a s' =>
          if Ascii.eqb a c then k (mkState (S (pos x)) s' (caps x))
          else None
      | EmptyString => None
      end
  | NotChr c =>
      match rest x with
      | String a s' =>
          if Ascii.eqb a c then None
          else k (mkState (S (pos x)) s' (caps x))
      | EmptyString => None
      end
  | Seq r1 r2 => run r1 x (fun y => run r2 y k)
  | Alt r1 r2 =>
      match run r1 x k with
      | Some z => Some z
      | None => run r2 x k
      end
  | Plus r1 =>
      run r1 x (fun y => repeat0 (run r1) k (String.length (rest y)) y)
  | Group r1 =>
      run r1 x (fun y =>
        k (mkState (pos y) (rest y)
             (caps y ++ [JsString.take (pos y - pos x) (rest x)])))
  | Bol => if Nat.eqb (pos x) 0 then k x else None
  | Eol =>
      match rest x with
      | EmptyString => k x
      | String _ _ => None
      end
  end.

(** What [exec] reports: where the match starts, the matched text and
    the captured groups. *)
Record match_result : Type := mkMatch {
  index : nat;
  matched : string;
  groups : list string
}.

(** The search loop of [RegExp.prototype.exec] without [g] or [y]:
    try at each index from the left, the end of input included. *)
Fixpoint search (r : regex) (i : nat) (s : string) : option match_result :=
  match run r (mkState i s []) Some with
  | Some y => Some (mkMatch i (JsString.take (pos y - i) s) (caps y))
  | None =>
      match s with
      | EmptyString => None
      | String _ s' => search r (S i) s'
      end
  end.

Definition exec (r : regex) (s : string) : option match_result :=
  search r 0 s.

(** [RegExp.prototype.test]. *)
Definition test (r : regex) (s : string) : bool :=
  match exec r s with
  | Some _ => true
  | None => false
  end.

End Regex.
Import Regex.

(** ** Untyped values and the validation combinators *)

(** A value as [JSON.parse] or a request body delivers it; an object is
    its own enumerable properties in order. *)
#[warnings="-register-all"]
Inductive json : Type :=
| JNull
| JBool (b : bool)
| JNum (n : number)
| JStr (s : string)
| JArr (items : list json)
| JObj (props : list (string * json)).

(** [o[k]]: [None] is [undefined]. *)
Fixpoint field (k : string) (o : list (string * json)) : option json :=
  match o with
  | [] => None
  | (k', v) :: o' => if String.eqb k' k then Some v else field k o'
  end.

Module Zod.

(** A schema turns a possibly-undefined input into a parsed value, or
    fails ([safeParse] with [success: false]). *)
Definition schema (A : Type) : Type := option json -> option A.

Definition bind {A B : Type} (m : option A) (f : A -> option B) : option B :=
  match m with
  | Some a => f a
  | None => None
  end.

Definition string : schema String.string :=
  fun v => match v with Some (JStr s) => Some s | _ => None end.

(** [z.number()] turns NaN away; infinities pass. *)
Definition number : schema Number.number :=
  fun v =>
    match v with
    | Some (JNum n) => if isNaN n then None else Some n
    | _ => None
    end.

Definition optional {A : Type} (s : schema A) : schema (option A) :=
  fun v =>
    match v with
    | None => Some None
    | Some _ => option_map Some (s v)
    end.

Fixpoint all {A : Type} (s : schema A) (l : list json) : option (list A) :=
  match l with
  | [] => Some []
  | v :: l' =>
      match s (Some v), all s l' with
      | Some a, Some r => Some (a :: r)
      | _, _ => None
      end
  end.

Definition array {A : Type} (s : schema A) : schema (list A) :=
  fun v => match v with Some (JArr l) => all s l | _ => None end.

(** [z.union([a, b])]: the first member that parses. *)
Definition union {A B : Type} (a : schema A) (b : schema B)
    : schema (A + B) :=
  fun v =>
    match a v with
    | Some x => Some (inl x)
    | None => option_map inr (b v)
    end.

(** [.transform(f)]: the output of [f] is not validated again. *)
Definition transform {A B : Type} (s : schema A) (f : A -> B) : schema B :=
  fun v => option_map f (s v).

(** [.refine(p)]. *)
Definition refine {A : Type} (s : schema A) (p : A -> bool) : schema A :=
  fun v => bind (s v) (fun a => if p a then Some a else None).

(** [z.object(shape)]: the input must be an object; unknown keys are
    dropped. *)
Definition object {A : Type} (shape : list (String.string * json) -> option A)
    : schema A :=
  fun v => match v with Some (JObj o) => shape o | _ => None end.

(** [z.object(shape).strict()]: a key outside [keys] is an issue. *)
Definition strict {A : Type} (keys : list String.string)
    (shape : list (String.string * json) -> option A) : schema A :=
  fun v =>
    match v with
    | Some (JObj o) =>
        if forallb (fun kv => existsb (String.eqb (fst kv)) keys) o
        then shape o else None
    | _ => None
    end.

End Zod.

Notation "'let?' x ':=' m 'in' k" := (Zod.bind m (fun x => k))
  (at level 10, x name, m at level 100, k at level 200, only parsing).

(** ** The schemas of the collector *)

Record File : Type := mkFile {
  name : string;
  source : option string;
  mtime : option string;
  size : option number;
  md5 : option string;
  crc32 : option string;
  sha1 : option string;
  format : string;
  viruscheck : option string;
  btih : option string;
  summation : option string
}.

Record Metadata : Type := mkMetadata {
  identifier : string;
  mediatype : string;
  collection : list string;
  description : option string;
  scanner : option string;
  subject : option string;
  title : string;
  uploader : string;
  publicdate : string;
  addeddate : string;
  curation : option string
}.

Record Location : Type := mkLocation {
  loc_server : string;
  loc_dir : string
}.

Record AlternateLocations : Type := mkAlternateLocations {
  servers : list Location;
  workable : list Location
}.

Record ArchiveResponse : Type := mkArchiveResponse {
  alternate_locations : option AlternateLocations;
  created : number;
  d1 : string;
  d2 : string;
  dir : string;
  files : list File;
  files_count : number;
  item_last_updated : number;
  item_size : number;
  metadata : Metadata;
  server : string;
  uniq : number;
  workable_servers : list string
}.

Record Config : Type := mkConfig {
  url : string
}.

(** The [size] member of [fileSchema]: a string or a number, a string
    going through [parseInt(val, 10)]. *)
Definition sizeSchema : Zod.schema (option number) :=
  Zod.optional
    (Zod.transform (Zod.union Zod.string Zod.number)
       (fun val => match val with
                   | inl str => parseInt str 10
                   | inr num => num
                   end)).

Definition fileSchema : Zod.schema File :=
  Zod.object (fun o =>
    let? f_name := Zod.string (field "name" o) in
    let? f_source := Zod.optional Zod.string (field "source" o) in
    let? f_mtime := Zod.optional Zod.string (field "mtime" o) in
    let? f_size := sizeSchema (field "size" o) in
    let? f_md5 := Zod.optional Zod.string (field "md5" o) in
    let? f_crc32 := Zod.optional Zod.string (field "crc32" o) in
    let? f_sha1 := Zod.optional Zod.string (field "sha1" o) in
    let? f_format := Zod.string (field "format" o) in
    let? f_viruscheck := Zod.optional Zod.string (field "viruscheck" o) in
    let? f_btih := Zod.optional Zod.string (field "btih" o) in
    let? f_summation := Zod.optional Zod.string (field "summation" o) in
    Some (mkFile f_name f_source f_mtime f_size f_md5 f_crc32 f_sha1
            f_format f_viruscheck f_btih f_summation)).

Definition metadataSchema : Zod.schema Metadata :=
  Zod.object (fun o =>
    let? m_identifier := Zod.string (field "identifier" o) in
    let? m_mediatype := Zod.string (field "mediatype" o) in
    let? m_collection := Zod.array Zod.string (field "collection" o) in
    let? m_description := Zod.optional Zod.string (field "description" o) in
    let? m_scanner := Zod.optional Zod.string (field "scanner" o) in
    let? m_subject := Zod.optional Zod.string (field "subject" o) in
    let? m_title := Zod.string (field "title" o) in
    let? m_uploader := Zod.string (field "uploader" o) in
    let? m_publicdate := Zod.string (field "publicdate" o) in
    let? m_addeddate := Zod.string (field "addeddate" o) in
    let? m_curation := Zod.optional Zod.string (field "curation" o) in
    Some (mkMetadata m_identifier m_mediatype m_collection m_description
            m_scanner m_subject m_title m_uploader m_publicdate m_addeddate
            m_curation)).

Definition locationSchema : Zod.schema Location :=
  Zod.object (fun o =>
    let? l_server := Zod.string (field "server" o) in
    let? l_dir := Zod.string (field "dir" o) in
    Some (mkLocation l_server l_dir)).

Definition archiveResponseSchema : Zod.schema ArchiveResponse :=
  Zod.object (fun o =>
    let? r_alternate :=
      Zod.optional
        (Zod.object (fun a =>
           let? a_servers := Zod.array locationSchema (field "servers" a) in
           let? a_workable := Zod.array locationSchema (field "workable" a) in
           Some (mkAlternateLocations a_servers a_workable)))
        (field "alternate_locations" o) in
    let? r_created := Zod.number (field "created" o) in
    let? r_d1 := Zod.string (field "d1" o) in
    let? r_d2 := Zod.string (field "d2" o) in
    let? r_dir := Zod.string (field "dir" o) in
    let? r_files := Zod.array fileSchema (field "files" o) in
    let? r_files_count := Zod.number (field "files_count" o) in
    let? r_item_last_updated := Zod.number (field "item_last_updated" o) in
    let? r_item_size := Zod.number (field "item_size" o) in
    let? r_metadata := metadataSchema (field "metadata" o) in
    let? r_server := Zod.string (field "server" o) in
    let? r_uniq := Zod.number (field "uniq" o) in
    let? r_workable_servers := Zod.array Zod.string (field "workable_servers" o) in
    Some (mkArchiveResponse r_alternate r_created r_d1 r_d2 r_dir r_files
            r_files_count r_item_last_updated r_item_size r_metadata
            r_server r_uniq r_workable_servers)).

(** [/^https:\/\/archive\.org\/(details|metadata)\/[^/]+$/] *)
Definition validUrlRegex : regex :=
  Seq Bol
    (Seq (lit "https://archive.org/")
       (Seq (Group (Alt (lit "details") (lit "metadata")))
          (Seq (Chr "/")
             (Seq (Plus (NotChr "/")) Eol)))).

(** [/https:\/\/archive\.org\/details\/([^/]+)/] *)
Definition detailsRegex : regex :=
  Seq (lit "https://archive.org/details/") (Group (Plus (NotChr "/"))).

(** [configSchema].  [z.string().url()] asks whether [new URL(val)]
    succeeds; that parser belongs to the platform and is taken as the
    parameter [url_parses]. *)
Definition configSchema (url_parses : string -> bool) : Zod.schema Config :=
  Zod.strict ["url"] (fun o =>
    let? c_url :=
      Zod.refine (Zod.refine Zod.string url_parses)
        (fun val => test validUrlRegex val)
        (field "url" o) in
    Some (mkConfig c_url)).

(** ** Errors, the store and the outside world *)

(** What a rejected promise carries. *)
Inductive exn : Type :=
| Error (message : string)
| DuplicateError (message : string) (id : option string)
| AxiosError (message : string)
| PrismaError (message : string).

Inductive result (A : Type) : Type :=
| Ok (a : A)
| Throw (e : exn).
Arguments Ok {A} a.
Arguments Throw {A} e.

Inductive Status : Type := DOWNLOADING | READY | ERROR.

Record DocumentSource : Type := mkDocumentSource {
  src_id : string;
  src_type : string;
  src_config : json
}.

Record Document : Type := mkDocument {
  doc_id : string;
  doc_sourceId : string;
  doc_path : string;
  doc_status : Status
}.

Inductive Level : Type := info | debug | error.

(** Everything the collector reads or changes outside itself: the two
    tables of the store, how many ids the store has handed out, how
    many document creations and [uuidv4()] calls were made, the
    download attempts as pairs of URL and destination, and the log. *)
Record World : Type := mkWorld {
  documentSource : list DocumentSource;
  document : list Document;
  minted : nat;
  creates : nat;
  uuids : nat;
  transfers : list (string * string);
  log : list (Level * string)
}.

(** The collaborators' answers.  [metadata_get] is the body the metadata
    endpoint returns for a path, [None] when the request fails;
    [transfer_ok n u p] says whether the [n]-th download attempt, of [u]
    into [p], runs to completion. *)
Record Env : Type := mkEnv {
  url_parses : string -> bool;
  zod_message : json -> string;
  uuidv4 : nat -> string;
  store_id : nat -> string;
  metadata_get : string -> option json;
  document_create_ok : nat -> bool;
  transfer_ok : nat -> string -> string -> bool
}.

(** Asynchronous code as state passing with rejection. *)
Definition M (S A : Type) : Type := S -> result A * S.

Definition ret {S A : Type} (a : A) : M S A := fun s => (Ok a, s).

Definition throw {S A : Type} (e : exn) : M S A := fun s => (Throw e, s).

Definition bindM {S A B : Type} (m : M S A) (f : A -> M S B) : M S B :=
  fun s =>
    match m s with
    | (Ok a, s') => f a s'
    | (Throw e, s') => (Throw e, s')
    end.

(** [try { body } catch (e) { handler }]: what [body] did to the state
    before throwing stays done. *)
Definition try_catch {S A : Type} (body : M S A) (handler : exn -> M S A)
    : M S A :=
  fun s =>
    match body s with
    | (Ok a, s') => (Ok a, s')
    | (Throw e, s') => handler e s'
    end.

Definition gets {S A : Type} (f : S -> A) : M S A := fun s => (Ok (f s), s).

Definition modify {S : Type} (f : S -> S) : M S unit := fun s => (Ok tt, f s).

Notation "'await' x <- m ; k" := (bindM m (fun x => k))
  (at level 60, x name, m at next level, right associativity).
Notation "'perform' m ; k" := (bindM m (fun _ => k))
  (at level 60, m at next level, right associativity).

(** [for (const x of l) body]. *)
Fixpoint for_of {S A : Type} (l : list A) (body : A -> M S unit) : M S unit :=
  match l with
  | [] => ret tt
  | x :: l' => perform body x ; for_of l' body
  end.

(** [logger.info], [logger.debug] and [logger.error]; of a call the
    level and the message are kept. *)
Definition logger (lvl : Level) (message : string) : M World unit :=
  modify (fun w =>
    mkWorld (documentSource w) (document w) (minted w) (creates w) (uuids w)
      (transfers w) (log w ++ [(lvl, message)])).

Fixpoint json_path (path : list string) (v : json) : option json :=
  match path with
  | [] => Some v
  | k :: path' =>
      match v with
      | JObj o =>
          match field k o with
          | Some v' => json_path path' v'
          | None => None
          end
      | _ => None
      end
  end.

Module Db.

(** Modelled from the spec: the persistence collaborator ([~/db]) is
    not part of the sources.  It exposes create and find for data
    sources keyed by type and [config.url], and create and update for
    documents keyed by id; an update that has no valid id to target is
    rejected.  This is the [where] clause of the duplicate check: the
    type, and the string at a path of the stored config. *)
Definition source_matches (ty : string) (path : list string)
    (equals : string) (r : DocumentSource) : bool :=
  String.eqb (src_type r) ty &&
  match json_path path (src_config r) with
  | Some (JStr v) => String.eqb v equals
  | _ => false
  end.

(** Modelled from the spec: [db.documentSource.findFirst], the first
    stored data source the filter holds of, or [null]. *)
Definition documentSource_findFirst (ty : string) (path : list string)
    (equals : string) : M World (option DocumentSource) :=
  gets (fun w => find (source_matches ty path equals) (documentSource w)).

(** Modelled from the spec: [db.documentSource.create], which stores a
    new row under an id of the store's choosing and returns it. *)
Definition documentSource_create (E : Env) (ty : string) (config : json)
    : M World DocumentSource :=
  fun w =>
    let r := mkDocumentSource (store_id E (minted w)) ty config in
    (Ok r,
     mkWorld (documentSource w ++ [r]) (document w) (S (minted w))
       (creates w) (uuids w) (transfers w) (log w)).

(** Modelled from the spec: [db.document.create]; the store may turn
    the creation down, and then no row and no id exist. *)
Definition document_create (E : Env) (sourceId path : string)
    (status : Status) : M World Document :=
  fun w =>
    if document_create_ok E (creates w) then
      let d := mkDocument (store_id E (minted w)) sourceId path status in
      (Ok d,
       mkWorld (documentSource w) (document w ++ [d]) (S (minted w))
         (S (creates w)) (uuids w) (transfers w) (log w))
    else
      (Throw (PrismaError "Invalid `prisma.document.create()` invocation"),
       mkWorld (documentSource w) (document w) (minted w)
         (S (creates w)) (uuids w) (transfers w) (log w)).

Definition has_id (i : string) (d : Document) : bool :=
  String.eqb (doc_id d) i.

Definition set_status (i : string) (status : Status) (d : Document)
    : Document :=
  if has_id i d
  then mkDocument (doc_id d) (doc_sourceId d) (doc_path d) status
  else d.

(** Modelled from the spec: [db.document.update] keyed by id; without
    a valid id to target the update is rejected. *)
Definition document_update (where_id : option string) (status : Status)
    : M World unit :=
  fun w =>
    match where_id with
    | Some i =>
        if existsb (has_id i) (document w) then
          (Ok tt,
           mkWorld (documentSource w) (map (set_status i status) (document w))
             (minted w) (creates w) (uuids w) (transfers w) (log w))
        else
          (Throw (PrismaError "Record to update not found."), w)
    | None =>
        (Throw (PrismaError "Argument `id` must not be null."), w)
    end.

End Db.

(** ** The collector *)

Record DownloadResult : Type := mkDownloadResult {
  successful : list string;
  failed : list string
}.

(** The variables of [downloadFiles] that its loop body assigns. *)
Record Locals : Type := mkLocals {
  arrays : DownloadResult;
  documentId : option string
}.

(** Run a step on the world from inside the loop. *)
Definition zoom {A : Type} (m : M World A) : M (World * Locals) A :=
  fun s =>
    let '(r, w') := m (fst s) in (r, (w', snd s)).

Section ArchiveOrgCollector.

Variable E : Env.

Definition next_uuid : M World string :=
  fun w =>
    (Ok (uuidv4 E (uuids w)),
     mkWorld (documentSource w) (document w) (minted w) (creates w)
       (S (uuids w)) (transfers w) (log w)).

(** [axiosInstance.get(path)], resolved to the response body. *)
Definition axios_get (path : string) : M World json :=
  match metadata_get E path with
  | Some body => ret body
  | None => throw (AxiosError "Network Error")
  end.

(** [axios.get(url, stream)] piped into [createWriteStream(path)]. *)
Definition stream_to_file (downloadUrl outputPath : string) : M World unit :=
  fun w =>
    let w' :=
      mkWorld (documentSource w) (document w) (minted w) (creates w)
        (uuids w) (transfers w ++ [(downloadUrl, outputPath)]) (log w) in
    if transfer_ok E (List.length (transfers w)) downloadUrl outputPath
    then (Ok tt, w')
    else (Throw (AxiosError "Network Error"), w').

Definition validateConfig (config : json) : option Config :=
  configSchema (url_parses E) (Some config).

Definition config_json (c : Config) : json := JObj [("url", JStr (url c))].

Definition createSource (config : json) : M World DocumentSource :=
  match validateConfig config with
  | None => throw (Error "Invalid configuration for archive.org files")
  | Some parsedConfig =>
      await found <-
        Db.documentSource_findFirst "archive.org files" ["url"]
          (url parsedConfig) ;
      match found with
      | Some existing =>
          throw (DuplicateError "Data source already exists"
                   (Some (src_id existing)))
      | None =>
          await newSource <-
            Db.documentSource_create E "archive.org files"
              (config_json parsedConfig) ;
          ret newSource
      end
  end.

Definition getIdentifierFromUrl (u : string) : option string :=
  match exec detailsRegex u with
  | Some m => Some (nth 0 (groups m) "")
  | None => None
  end.

Definition getArchiveData (u : string) : M World ArchiveResponse :=
  match getIdentifierFromUrl u with
  | None => throw (Error "Invalid Archive.org URL")
  | Some id =>
      try_catch
        (await data <- axios_get ("/metadata/" ++ id) ;
         match archiveResponseSchema (Some data) with
         | None =>
             perform logger error "Invalid response structure from Archive.org" ;
             throw (Error "Invalid response structure from Archive.org")
         | Some parsed => ret parsed
         end)
        (fun _ =>
           perform logger error "Error fetching metadata from Archive.org" ;
           throw (Error "Failed to fetch metadata from Archive.org"))
  end.


Definition getDownloadUrl (archiveData : ArchiveResponse) (fileName : string)
    : string :=
  "https://" ++ server archiveData ++ dir archiveData ++ "/" ++ fileName.

Definition downloadFile (archiveData : ArchiveResponse)
    (fileName outputPath : string) : M World unit :=
  let downloadUrl := getDownloadUrl archiveData fileName in
  try_catch
    (perform logger info "Starting file download" ;
     perform stream_to_file downloadUrl outputPath ;
     logger info "File download completed")
    (fun _ =>
       perform logger error "Error downloading file" ;
       throw (Error ("Failed to download file: " ++ fileName))).

Definition push_successful (outputPath : string) : M (World * Locals) unit :=
  modify (fun s =>
    (fst s,
     mkLocals
       (mkDownloadResult (successful (arrays (snd s)) ++ [outputPath])
          (failed (arrays (snd s))))
       (documentId (snd s)))).

Definition set_documentId (v : option string) : M (World * Locals) unit :=
  modify (fun s => (fst s, mkLocals (arrays (snd s)) v)).

(** One turn of the [for] loop of [downloadFiles]. *)
Definition download_one (sourceId outputDir : string)
    (archiveData : ArchiveResponse) (total : nat) (file : File)
    : M (World * Locals) unit :=
  await uuid <- zoom next_uuid ;
  let fileName :=
    uuid ++ "." ++ JsString.interpolate (JsString.pop (JsString.split "." (name file))) in
  let outputPath := outputDir ++ "/" ++ fileName in
  perform set_documentId None ;
  try_catch
    (await done <- gets (fun s =>
       List.length (successful (arrays (snd s))) +
       List.length (failed (arrays (snd s)))) ;
     perform zoom (logger debug
       ("Downloading file " ++ JsString.of_nat (done + 1) ++ "/" ++
        JsString.of_nat total)) ;
     await doc <- zoom (Db.document_create E sourceId outputPath DOWNLOADING) ;
     perform set_documentId (Some (doc_id doc)) ;
     perform zoom (downloadFile archiveData (name file) outputPath) ;
     perform push_successful outputPath ;
     perform zoom (logger debug "File downloaded successfully") ;
     await current <- gets (fun s => documentId (snd s)) ;
     zoom (Db.document_update current READY))
    (fun _ =>
       await current <- gets (fun s => documentId (snd s)) ;
       perform zoom (Db.document_update current ERROR) ;
       zoom (logger error "Failed to download file")).

Definition downloadFiles (sourceId : string) (config : json)
    (outputDir : string) (fileFilter : option (File -> bool))
    : M World DownloadResult :=
  match configSchema (url_parses E) (Some config) with
  | None => throw (Error ("Invalid configuration: " ++ zod_message E config))
  | Some parsed =>
      await archiveData <- getArchiveData (url parsed) ;
      let selected :=
        match fileFilter with
        | Some keep => filter keep (files archiveData)
        | None => files archiveData
        end in
      perform logger info "Starting individual file downloads" ;
      fun w =>
        let '(r, (w', locals)) :=
          for_of selected
            (download_one sourceId outputDir archiveData (List.length selected))
            (w, mkLocals (mkDownloadResult [] []) None) in
        match r with
        | Throw e => (Throw e, w')
        | Ok _ =>
            (perform logger info "All file downloads completed" ;
             ret (arrays locals)) w'
        end
  end.

(** The orchestrator as [src/collectors/archive.ts] still has it: files
    keep their remote names, no document rows are written. *)
Definition push_failed (fileName : string) : M (World * Locals) unit :=
  modify (fun s =>
    (fst s,
     mkLocals
       (mkDownloadResult (successful (arrays (snd s)))
          (failed (arrays (snd s)) ++ [fileName]))
       (documentId (snd s)))).

Definition download_one_from_url (outputDir : string)
    (archiveData : ArchiveResponse) (total : nat) (file : File)
    : M (World * Locals) unit :=
  let outputPath := outputDir ++ "/" ++ name file in
  try_catch
    (await done <- gets (fun s =>
       List.length (successful (arrays (snd s))) +
       List.length (failed (arrays (snd s)))) ;
     perform zoom (logger info
       ("Downloading file " ++ JsString.of_nat (done + 1) ++ "/" ++
        JsString.of_nat total)) ;
     perform zoom (downloadFile archiveData (name file) outputPath) ;
     perform push_successful outputPath ;
     zoom (logger info "File downloaded successfully"))
    (fun _ =>
       perform push_failed (name file) ;
       zoom (logger error "Failed to download file")).

Definition downloadFilesFromUrl (u outputDir : string)
    (fileFilter : option (File -> bool)) : M World DownloadResult :=
  await archiveData <- getArchiveData u ;
  let selected :=
    match fileFilter with
    | Some keep => filter keep (files archiveData)
    | None => files archiveData
    end in
  perform logger info "Starting individual file downloads" ;
  fun w =>
    let '(r, (w', locals)) :=
      for_of selected
        (download_one_from_url outputDir archiveData (List.length selected))
        (w, mkLocals (mkDownloadResult [] []) None) in
    match r with
    | Throw e => (Throw e, w')
    | Ok _ =>
        (perform logger info "All file downloads completed" ;
         ret (arrays locals)) w'
    end.

End ArchiveOrgCollector.

(** ** Sample collaborators and inputs *)

Module Sample.

Definition file_entry (n : string) (sz : json) : json :=
  JObj [("name", JStr n); ("format", JStr "Text PDF"); ("size", sz)].

Definition item_metadata : json :=
  JObj [("identifier", JStr "foo"); ("mediatype", JStr "texts");
        ("collection", JArr [JStr "opensource"]); ("title", JStr "Foo");
        ("uploader", JStr "someone@example.org");
        ("publicdate", JStr "2020-01-01 00:00:00");
        ("addeddate", JStr "2020-01-01 00:00:00")].

(** A metadata body with the given [files] array. *)
Definition response (entries : list json) : json :=
  JObj [("created", JNum (of_Z 1700000000));
        ("d1", JStr "ia600.us.archive.org");
        ("d2", JStr "ia800.us.archive.org");
        ("dir", JStr "/12/items/foo");
        ("files", JArr entries);
        ("files_count", JNum (of_Z (Z.of_nat (List.length entries))));
        ("item_last_updated", JNum (of_Z 1700000001));
        ("item_size", JNum (of_Z 37035));
        ("metadata", item_metadata);
        ("server", JStr "ia600.us.archive.org");
        ("uniq", JNum (of_Z 42));
        ("workable_servers", JArr [JStr "ia600.us.archive.org"])].

Definition three_files : json :=
  response [file_entry "a.pdf" (JStr "12345");
            file_entry "b.pdf" (JNum (of_Z 12345));
            file_entry "c.txt" (JStr "12345")].

(** The same body without its [files] array. *)
Definition no_files : json :=
  JObj [("created", JNum (of_Z 1700000000));
        ("d1", JStr "ia600.us.archive.org");
        ("d2", JStr "ia800.us.archive.org");
        ("dir", JStr "/12/items/foo");
        ("files_count", JNum (of_Z 0));
        ("item_last_updated", JNum (of_Z 1700000001));
        ("item_size", JNum (of_Z 37035));
        ("metadata", item_metadata);
        ("server", JStr "ia600.us.archive.org");
        ("uniq", JNum (of_Z 42));
        ("workable_servers", JArr [JStr "ia600.us.archive.org"])].

(** Collaborators that answer every metadata request with [body], and
    serve the document creations and the transfers that [create_ok]
    and [transfer] allow, by call number. *)
Definition env (body : json) (create_ok transfer : nat -> bool) : Env :=
  mkEnv (fun _ => true) (fun _ => "[]")
    (fun n => "uuid" ++ JsString.of_nat n)
    (fun n => "row" ++ JsString.of_nat n)
    (fun _ => Some body)
    create_ok
    (fun n _ _ => transfer n).

Definition always (n : nat) : bool := true.

Definition all_but (k n : nat) : bool := negb (Nat.eqb n k).

Definition empty_world : World := mkWorld [] [] 0 0 0 [] [].

(** Everything is served. *)
Definition calm : Env := env three_files always always.

(** The second transfer of the batch breaks off. *)
Definition second_transfer_fails : Env :=
  env three_files always (all_but 1).

(** The first document row cannot be created. *)
Definition first_create_rejected : Env :=
  env three_files (all_but 0) always.

(** The endpoint answers without a [files] array. *)
Definition serves_no_files : Env := env no_files always always.

Definition snapshot : ArchiveResponse :=
  mkArchiveResponse None (of_Z 1700000000) "ia600.us.archive.org"
    "ia800.us.archive.org" "/12/items/foo" [] (of_Z 0) (of_Z 1700000001)
    (of_Z 37035)
    (mkMetadata "foo" "texts" ["opensource"] None None None "Foo"
       "someone@example.org" "2020-01-01 00:00:00" "2020-01-01 00:00:00"
       None)
    "ia600.us.archive.org" (of_Z 42) ["ia600.us.archive.org"].

Definition pdf_entry : list (string * json) :=
  [("name", JStr "a.pdf"); ("format", JStr "Text PDF");
   ("size", JStr "12345")].

Definition odd_entry : list (string * json) :=
  [("size", JStr "abc"); ("name", JStr "a.pdf");
   ("format", JStr "Text PDF")].

Definition pdf_file (sz : option number) : File :=
  mkFile "a.pdf" None None sz None None None "Text PDF" None None None.

Definition details_config : json :=
  JObj [("url", JStr "https://archive.org/details/foo")].

Definition metadata_config : json :=
  JObj [("url", JStr "https://archive.org/metadata/foo")].

End Sample.

(** ** The words of the specification *)

Definition details_prefix : string := "https://archive.org/details/".

Definition metadata_prefix : string := "https://archive.org/metadata/".

(** [u] is [https://archive.org/details/{id}], optionally followed by
    further path segments. *)
Definition details_url (id u : string) : Prop :=
  id <> "" /\ JsString.lacks "/" id = true /\
  exists trailing,
    (trailing = "" \/ exists t, trailing = String "/" t) /\
    u = details_prefix ++ id ++ trailing.

(** Somewhere in [u] the details prefix stands in front of a character
    that can start an identifier. *)
Definition embeds_details (u : string) : Prop :=
  exists pre a t, a <> "/"%char /\ u = pre ++ details_prefix ++ String a t.

(** The canonical shape of a configured URL: the details or the metadata
    path with one slash-free identifier and nothing after it. *)
Definition canonical_url (u : string) : Prop :=
  exists id,
    id <> "" /\ JsString.lacks "/" id = true /\
    (u = details_prefix ++ id \/ u = metadata_prefix ++ id).

(** [m] leaves the property [P] of the loop variables standing. *)
Definition keeps (P : Locals -> Prop) {A : Type} (m : M (World * Locals) A)
    : Prop :=
  forall s r s', m s = (r, s') -> P (snd s) -> P (snd s').

(** No failure has been recorded. *)
Definition none_failed (l : Locals) : Prop := failed (arrays l) = [].

(** [f] with another size. *)
Definition with_size (f : File) (sz : option number) : File :=
  mkFile (name f) (source f) (mtime f) sz (md5 f) (crc32 f) (sha1 f)
    (format f) (viruscheck f) (btih f) (summation f).

(** The data sources a registration of [u] competes with. *)
Definition registered (u : string) (w : World) : list DocumentSource :=
  filter (Db.source_matches "archive.org files" ["url"] u) (documentSource w).

(** An object has no field other than [k]. *)
Definition only_field (k : string) (o : list (string * json)) : Prop :=
  forall k' v, In (k', v) o -> k' = k.

(** A separator and one slash-free, non-empty segment up to the end. *)
Definition is_segment (r : string) : bool :=
  match r with
  | String c (String a t) =>
      Ascii.eqb c "/" && negb (Ascii.eqb a "/") && JsString.lacks "/" t
  | _ => false
  end.

(** ** The rest of the sources: the earlier batch download, the routes
       and the server environment *)

(** [s.endsWith(suffix)]. *)
Definition endsWith (s suffix : string) : bool :=
  Nat.leb (String.length suffix) (String.length s) &&
  String.eqb
    (JsString.drop (String.length s - String.length suffix) s) suffix.

(** [error instanceof Error ? error.message : ...]; every rejection
    here is an [Error] or a subclass of it. *)
Definition error_message (e : exn) : string :=
  match e with
  | Error m | DuplicateError m _ | AxiosError m | PrismaError m => m
  end.

Module ZodMore.

(** [z.unknown()]: anything, [undefined] included. *)
Definition unknown : Zod.schema (option json) := fun v => Some v.

(** [z.enum(values)]. *)
Definition enum (values : list string) : Zod.schema string :=
  Zod.refine Zod.string (fun s => existsb (String.eqb s) values).

(** [.default(d)]: [undefined] becomes [d], anything else is parsed. *)
Definition default {A : Type} (s : Zod.schema A) (d : A) : Zod.schema A :=
  fun v =>
    match v with
    | None => Some d
    | Some _ => s v
    end.

(** [z.string().min(n)]. *)
Definition min (s : Zod.schema string) (n : nat) : Zod.schema string :=
  Zod.refine s (fun str => Nat.leb n (String.length str)).

End ZodMore.

(** Run a step on the world beside any local state. *)
Definition beside {L A : Type} (m : M World A) : M (World * L) A :=
  fun s =>
    let '(r, w') := m (fst s) in (r, (w', snd s)).

(** Modelled from the spec: [db.documentSource.findUnique], the stored
    data source with the given id, or [null]; the persistence
    collaborator ([~/db]) is not part of the sources. *)
Definition documentSource_findUnique (id : string)
    : M World (option DocumentSource) :=
  gets (fun w => find (fun r => String.eqb (src_id r) id) (documentSource w)).

Section Legacy.

Variable E : Env.

(** [downloadMultipleFiles] of [src/collectors/archive.ts]; the local
    state is the array [downloadedFiles]. *)
Definition download_one_of_many (outputDir : string)
    (archiveData : ArchiveResponse) (file : File)
    : M (World * list string) unit :=
  let outputPath := outputDir ++ "/" ++ name file in
  try_catch
    (perform beside (downloadFile E archiveData (name file) outputPath) ;
     modify (fun s => (fst s, (snd s ++ [outputPath])%list)))
    (fun _ => beside (logger error "Failed to download file in batch")).

Definition downloadMultipleFiles (u : string) (fileFilter : File -> bool)
    (outputDir : string) : M World (list string) :=
  await archiveData <- getArchiveData E u ;
  let filesToDownload := filter fileFilter (files archiveData) in
  perform logger info "Starting batch download" ;
  fun w =>
    let '(r, (w', downloadedFiles)) :=
      for_of filesToDownload (download_one_of_many outputDir archiveData)
        (w, []) in
    match r with
    | Throw e => (Throw e, w')
    | Ok _ =>
        (perform logger info "Batch download completed" ;
         ret downloadedFiles) w'
    end.

End Legacy.

(** *** The routes of [src/index.ts] *)

(** What a route answers with [res.status(code).json(payload)]. *)
Inductive payload : Type :=
| Issues
| Failure (error : string)
| Conflict (error : string) (id : option string)
| Created (newSource : DocumentSource)
| Message (message : string).

Record response : Type := mkResponse {
  res_status : nat;
  res_json : payload
}.

Record CreateBody : Type := mkCreateBody {
  body_type : string;
  body_config : option json
}.

(** [bodySchema] of the create route. *)
Definition bodySchema : Zod.schema CreateBody :=
  Zod.object (fun o =>
    let? b_type := ZodMore.enum ["archive.org files"] (field "type" o) in
    let? b_config := ZodMore.unknown (field "config" o) in
    Some (mkCreateBody b_type b_config)).

(** The filter the task route passes to [downloadFiles]. *)
Definition pdf_or_txt (file : File) : bool :=
  endsWith (name file) ".pdf" || endsWith (name file) ".txt".

Section Routes.

Variable E : Env.

(** [idSchema], [z.string().uuid()]: the pattern belongs to the
    validation library and is taken as a parameter. *)
Variable is_uuid : string -> bool.

(** [collector.createSource(config)] for a [config] that may be
    [undefined]: the strict object schema turns [undefined] down like
    any other value that is not an object. *)
Definition createSource_unknown (config : option json)
    : M World DocumentSource :=
  match config with
  | Some c => createSource E c
  | None => throw (Error "Invalid configuration for archive.org files")
  end.

(** [app.post("/datasource/create", ...)] on the request body. *)
Definition post_datasource_create (body : json) : M World response :=
  match bodySchema (Some body) with
  | None => ret (mkResponse 400 Issues)
  | Some parsed =>
      if String.eqb (body_type parsed) "archive.org files" then
        try_catch
          (await newSource <- createSource_unknown (body_config parsed) ;
           ret (mkResponse 201 (Created newSource)))
          (fun err =>
             match err with
             | DuplicateError m id => ret (mkResponse 409 (Conflict m id))
             | _ =>
                 perform logger error "Error creating data source" ;
                 ret (mkResponse 400 (Failure (error_message err)))
             end)
      else ret (mkResponse 400 (Failure "Unsupported data source type"))
  end.

(** [app.post("/task/datasource/:id", ...)] on the path parameter.  The
    handler has no [catch]: a rejection of [downloadFiles] leaves it as
    a rejection; and for a source of another type it ends without an
    answer, which is [None]. *)
Definition post_task_datasource (rawId : string)
    : M World (option response) :=
  if is_uuid rawId then
    await source <- documentSource_findUnique rawId ;
    match source with
    | None => ret (Some (mkResponse 404 (Failure "Data source not found")))
    | Some found =>
        if String.eqb (src_type found) "archive.org files" then
          perform downloadFiles E (src_id found) (src_config found)
                    "./downloads" (Some pdf_or_txt) ;
          ret (Some (mkResponse 200 (Message "Download task finished")))
        else ret None
    end
  else ret (Some (mkResponse 400 (Failure "Invalid ID"))).

End Routes.

(** *** The server environment *)

Module ServerEnvironment.

(** The exported [env]; [DATABASE_URL] can be [undefined] when the
    validation is skipped. *)
Record ServerEnv : Type := mkServerEnv {
  NODE_ENV : string;
  DATABASE_URL : option string
}.

(** [process.env]: names and their string values. *)
Definition process_env : Type := list (string * string).

Definition as_object (vars : process_env) : json :=
  JObj (map (fun kv => (fst kv, JStr (snd kv))) vars).

(** [process.env.NAME]. *)
Fixpoint lookup (k : string) (vars : process_env) : option string :=
  match vars with
  | [] => None
  | (k', v) :: vars' => if String.eqb k' k then Some v else lookup k vars'
  end.

(** The values [NODE_ENV] may take. *)
Definition node_envs : list string := ["development"; "test"; "production"].

Definition envSchema : Zod.schema ServerEnv :=
  Zod.object (fun o =>
    let? e_node_env :=
      ZodMore.default (ZodMore.enum node_envs) "development"
        (field "NODE_ENV" o) in
    let? e_database_url :=
      ZodMore.min Zod.string 1 (field "DATABASE_URL" o) in
    Some (mkServerEnv e_node_env (Some e_database_url))).

(** [process.env.SKIP_ENV_VALIDATION === "1"]. *)
Definition skips (vars : process_env) : bool :=
  match lookup "SKIP_ENV_VALIDATION" vars with
  | Some v => String.eqb v "1"
  | None => false
  end.

(** The value the module exports, or the error its loading throws. *)
Definition env (vars : process_env) : result ServerEnv :=
  if skips vars then
    Ok (mkServerEnv
          (match lookup "NODE_ENV" vars with
           | Some v => v
           | None => "development"
           end)
          (lookup "DATABASE_URL" vars))
  else
    match envSchema (Some (as_object vars)) with
    | Some parsed => Ok parsed
    | None => Throw (Error "Invalid server environment variables")
    end.

End ServerEnvironment.

(** *** Vocabulary for the further properties *)

(** The members of [archiveResponseSchema] that are not optional. *)
Definition required_keys : list string :=
  ["created"; "d1"; "d2"; "dir"; "files"; "files_count";
   "item_last_updated"; "item_size"; "metadata"; "server"; "uniq";
   "workable_servers"].

(** All the members of [archiveResponseSchema]. *)
Definition response_keys : list string :=
  "alternate_locations" :: required_keys.

(** The store holds at most one data source for a URL. *)
Definition unique_sources (w : World) : Prop :=
  forall u, List.length (registered u w) <= 1.

(** Two worlds with the same tables and the same counters. *)
Definition same_store (w w' : World) : Prop :=
  documentSource w' = documentSource w /\ document w' = document w /\
  minted w' = minted w /\ creates w' = creates w /\ uuids w' = uuids w.

(** [w] with further log entries. *)
Definition with_log (w : World) (entries : list (Level * string)) : World :=
  mkWorld (documentSource w) (document w) (minted w) (creates w) (uuids w)
    (transfers w) (log w ++ entries).

(** A document row whose download is over, one way or the other. *)
Definition settled (d : Document) : Prop := doc_status d <> DOWNLOADING.

(** The files a batch goes through. *)
Definition selected_files (fileFilter : option (File -> bool))
    (archiveData : ArchiveResponse) : list File :=
  match fileFilter with
  | Some keep => filter keep (files archiveData)
  | None => files archiveData
  end.

(** The local path the loop generates for [file] in the world [w]. *)
Definition generated_path (E : Env) (outputDir : string) (file : File)
    (w : World) : string :=
  outputDir ++ "/" ++ uuidv4 E (uuids w) ++ "." ++
  JsString.interpolate (JsString.pop (JsString.split "." (name file))).

(** Where the earlier batch functions put a file. *)
Definition legacy_path (outputDir : string) (file : File) : string :=
  outputDir ++ "/" ++ name file.

(** What [parseInt] looks at once a leading sign is taken off. *)
Definition strip_sign (s : string) : string :=
  match s with
  | String "-" r => r
  | String "+" r => r
  | _ => s
  end.

(** Whether the string begins with a minus sign. *)
Definition is_negative (s : string) : bool :=
  match s with
  | String "-" _ => true
  | _ => false
  end.

(** *** More samples *)

Module More.

(** The members of the sample body with three files. *)
Definition three_props : list (string * json) :=
  Eval cbv in
    match Sample.three_files with
    | JObj o => o
    | _ => []
    end.

(** The snapshot the schema makes of it. *)
Definition three_snapshot : ArchiveResponse :=
  Eval vm_compute in
    match archiveResponseSchema (Some Sample.three_files) with
    | Some r => r
    | None => Sample.snapshot
    end.

(** The world after the sample config has been registered. *)
Definition registered_world : World :=
  Eval vm_compute in
    snd (createSource Sample.calm Sample.details_config Sample.empty_world).

End More.

(** * Properties *)

(** ** Strings *)

Section StringFacts.

Import JsString.

Lemma strip_prefix_app (p r : string) : strip_prefix p (p ++ r) = Some r.
Proof.
  induction p as [|a p IH]; simpl; [reflexivity|].
  now rewrite Ascii.eqb_refl.
Qed.

Lemma strip_prefix_Some (p s r : string) :
  strip_prefix p s = Some r -> s = p ++ r.
Proof.
  revert s; induction p as [|a p IH]; simpl; intros s H.
  - now inversion H.
  - destruct s as [|b s]; [discriminate|].
    destruct (Ascii.eqb a b) eqn:Eab; [|discriminate].
    apply Ascii.eqb_eq in Eab; subst b.
    now rewrite (IH _ H).
Qed.

Lemma lacks_app (c : ascii) (s t : string) :
  lacks c (s ++ t) = lacks c s && lacks c t.
Proof.
  induction s as [|a s IH]; simpl; [reflexivity|].
  now rewrite IH, andb_assoc.
Qed.

Lemma span_len_lacks (c : ascii) (s : string) :
  lacks c s = true -> span_len c s = String.length s.
Proof.
  induction s as [|a s IH]; simpl; [reflexivity|].
  destruct (Ascii.eqb a c); simpl; [discriminate|].
  intros H; now rewrite IH.
Qed.

(** A slash-free segment followed by nothing, or by a separator, is
    exactly the leading run. *)
Lemma span_len_segment (c : ascii) (s t : string) :
  lacks c s = true ->
  t = EmptyString \/ (exists t', t = String c t') ->
  span_len c (s ++ t) = String.length s.
Proof.
  intros Hs Ht.
  induction s as [|a s IH]; simpl in *.
  - destruct Ht as [->|[t' ->]]; simpl; [reflexivity|].
    now rewrite Ascii.eqb_refl.
  - destruct (Ascii.eqb a c); simpl in *; [discriminate|].
    now rewrite IH.
Qed.

Lemma take_app_length (s t : string) : take (String.length s) (s ++ t) = s.
Proof.
  induction s as [|a s IH]; simpl.
  - now destruct t.
  - now rewrite IH.
Qed.

Lemma take_length (s : string) : take (String.length s) s = s.
Proof.
  induction s as [|a s IH]; simpl; [reflexivity|now rewrite IH].
Qed.

Lemma drop_span_lacks (c : ascii) (s : string) :
  lacks c s = true -> drop (span_len c s) s = EmptyString.
Proof.
  induction s as [|a s IH]; simpl; [reflexivity|].
  destruct (Ascii.eqb a c); simpl; [discriminate|assumption].
Qed.

Lemma append_nil_r (s : string) : s ++ "" = s.
Proof.
  induction s as [|a s IH]; simpl; [reflexivity|now rewrite IH].
Qed.

Lemma append_assoc (s t u : string) : (s ++ t) ++ u = s ++ t ++ u.
Proof.
  induction s as [|a s IH]; simpl; [reflexivity|now rewrite IH].
Qed.

End StringFacts.

(** ** The matcher on the constructs of the two literals *)

Section MatcherFacts.

Import JsString.

Lemma run_lit (p : string) :
  forall (x : mstate) (k : cont),
    run (lit p) x k =
    match strip_prefix p (rest x) with
    | Some r => k (mkState (pos x + String.length p) r (caps x))
    | None => None
    end.
Proof.
  induction p as [|a p IH]; intros [i s cs] k; simpl.
  - now rewrite Nat.add_0_r.
  - destruct s as [|b s]; [reflexivity|].
    rewrite (Ascii.eqb_sym b a).
    destruct (Ascii.eqb a b); [|reflexivity].
    rewrite IH; simpl.
    now rewrite Nat.add_succ_r.
Qed.

(** One turn of the greedy loop over [[^c]]. *)
Lemma repeat0_step (c : ascii) (k : cont) (fuel i : nat) (a : ascii)
    (s : string) (cs : list string) :
  repeat0 (run (NotChr c)) k (S fuel) (mkState i (String a s) cs) =
  if Ascii.eqb a c then k (mkState i (String a s) cs)
  else match repeat0 (run (NotChr c)) k fuel (mkState (S i) s cs) with
       | Some z => Some z
       | None => k (mkState i (String a s) cs)
       end.
Proof.
  cbn [repeat0 run rest pos caps].
  destruct (Ascii.eqb a c); [reflexivity|].
  now rewrite (proj2 (Nat.eqb_neq (S i) i)) by lia.
Qed.

Lemma repeat0_stop (c : ascii) (k : cont) (fuel i : nat)
    (cs : list string) :
  repeat0 (run (NotChr c)) k fuel (mkState i "" cs) = k (mkState i "" cs).
Proof. destruct fuel; reflexivity. Qed.

(** The greedy loop under a continuation that accepts whatever it is
    given stops at the end of the run. *)
Lemma repeat0_greedy (c : ascii) (k : cont) :
  (forall y, k y <> None) ->
  forall (fuel i : nat) (s : string) (cs : list string),
    String.length s <= fuel ->
    repeat0 (run (NotChr c)) k fuel (mkState i s cs) =
    k (mkState (i + span_len c s) (drop (span_len c s) s) cs).
Proof.
  intros Hk; induction fuel as [|fuel IH]; intros i s cs Hlen.
  - destruct s; simpl in Hlen; [|lia].
    simpl. now rewrite Nat.add_0_r.
  - destruct s as [|a s].
    + rewrite repeat0_stop. simpl. now rewrite Nat.add_0_r.
    + rewrite repeat0_step. simpl span_len. simpl in Hlen.
      destruct (Ascii.eqb a c).
      * simpl. now rewrite Nat.add_0_r.
      * rewrite IH by lia.
        rewrite Nat.add_succ_r; simpl.
        destruct (k (mkState (S (i + span_len c s))
                       (drop (span_len c s) s) cs)) eqn:Ek;
          [reflexivity|].
        now apply Hk in Ek.
Qed.

(** The greedy loop followed by [$] succeeds only by running to the
    end of the input. *)
Lemma repeat0_to_end (c : ascii) (k : cont) :
  forall (fuel i : nat) (s : string) (cs : list string),
    String.length s <= fuel ->
    repeat0 (run (NotChr c)) (fun y => run Eol y k) fuel (mkState i s cs) =
    if lacks c s then k (mkState (i + String.length s) "" cs) else None.
Proof.
  induction fuel as [|fuel IH]; intros i s cs Hlen.
  - destruct s; simpl in Hlen; [|lia].
    simpl. now rewrite Nat.add_0_r.
  - destruct s as [|a s].
    + rewrite repeat0_stop. simpl. now rewrite Nat.add_0_r.
    + rewrite repeat0_step. simpl in Hlen. simpl lacks.
      destruct (Ascii.eqb a c); simpl; [reflexivity|].
      rewrite IH by lia.
      rewrite Nat.add_succ_r; simpl.
      now destruct (lacks c s); [destruct (k _)|].
Qed.

Lemma run_Seq (r1 r2 : regex) (x : mstate) (k : cont) :
  run (Seq r1 r2) x k = run r1 x (fun y => run r2 y k).
Proof. reflexivity. Qed.

Lemma run_Alt (r1 r2 : regex) (x : mstate) (k : cont) :
  run (Alt r1 r2) x k =
  match run r1 x k with
  | Some z => Some z
  | None => run r2 x k
  end.
Proof. reflexivity. Qed.

Lemma run_Group (r : regex) (x : mstate) (k : cont) :
  run (Group r) x k =
  run r x (fun y =>
    k (mkState (pos y) (rest y)
         (caps y ++ [take (pos y - pos x) (rest x)]))).
Proof. reflexivity. Qed.

Lemma run_Plus_NotChr (c : ascii) (i : nat) (s : string)
    (cs : list string) (k : cont) :
  run (Plus (NotChr c)) (mkState i s cs) k =
  match s with
  | String a s' =>
      if Ascii.eqb a c then None
      else repeat0 (run (NotChr c)) k (String.length s') (mkState (S i) s' cs)
  | EmptyString => None
  end.
Proof. destruct s as [|a s']; [reflexivity|]. cbn [run rest pos caps].
  now destruct (Ascii.eqb a c). Qed.

Lemma search_eq (r : regex) (i : nat) (s : string) :
  search r i s =
  match run r (mkState i s []) Some with
  | Some y => Some (mkMatch i (take (pos y - i) s) (caps y))
  | None =>
      match s with
      | EmptyString => None
      | String _ s' => search r (S i) s'
      end
  end.
Proof. destruct s; reflexivity. Qed.

End MatcherFacts.

(** ** Identifier resolution *)

Section ResolverFacts.

Import JsString.

(** What one attempt of the details pattern at index [i] yields. *)
Lemma run_details (i : nat) (s : string) :
  run detailsRegex (mkState i s []) Some =
  match strip_prefix "https://archive.org/details/" s with
  | Some (String a t) =>
      if Ascii.eqb a "/" then None
      else Some (mkState (S (i + 28) + span_len "/" t)
                   (drop (span_len "/" t) t)
                   [String a (take (span_len "/" t) t)])
  | _ => None
  end.
Proof.
  unfold detailsRegex. rewrite run_Seq, run_lit. cbn [rest pos caps].
  destruct (strip_prefix _ s) as [[|a t]|]; try reflexivity.
  rewrite run_Group, run_Plus_NotChr.
  destruct (Ascii.eqb a "/"); [reflexivity|].
  rewrite repeat0_greedy; [|discriminate|cbn; lia].
  cbn [pos rest caps app].
  change (String.length "https://archive.org/details/") with 28.
  replace (S (i + 28) + span_len "/" t - (i + 28))
    with (S (span_len "/" t)) by lia.
  reflexivity.
Qed.

Lemma search_details_None (s : string) :
  forall i,
    search detailsRegex i s = None <->
    (forall pre a t, s = pre ++ details_prefix ++ String a t -> a = "/"%char).
Proof.
  induction s as [|c s IH]; intros i; rewrite search_eq, run_details.
  - split; [|reflexivity].
    intros _ pre a t H. destruct pre; discriminate H.
  - assert (Htail :
      (forall pre a t, s = pre ++ details_prefix ++ String a t ->
                       a = "/"%char) ->
      (forall a t, String c s = details_prefix ++ String a t ->
                   a = "/"%char) ->
      forall pre a t, String c s = pre ++ details_prefix ++ String a t ->
                      a = "/"%char).
    { intros Hs H0 [|b pre] a t Heq.
      - exact (H0 a t Heq).
      - injection Heq as _ Heq. exact (Hs pre a t Heq). }
    assert (Hcons :
      (forall pre a t, String c s = pre ++ details_prefix ++ String a t ->
                       a = "/"%char) ->
      forall pre a t, s = pre ++ details_prefix ++ String a t ->
                      a = "/"%char).
    { intros H pre a t Heq. apply (H (String c pre) a t).
      cbn [append]. now rewrite <- Heq. }
    destruct (strip_prefix _ (String c s)) as [[|a t]|] eqn:Ep.
    + rewrite IH. apply strip_prefix_Some in Ep.
      split; [|exact Hcons]. intros H. apply Htail; [exact H|].
      intros a t Heq. rewrite Ep in Heq.
      unfold details_prefix in Heq. cbn [append] in Heq.
      discriminate Heq.
    + apply strip_prefix_Some in Ep.
      destruct (Ascii.eqb a "/") eqn:Ea.
      * rewrite IH. apply Ascii.eqb_eq in Ea. subst a.
        split; [|exact Hcons]. intros H. apply Htail; [exact H|].
        intros a t' Heq. rewrite Ep in Heq.
        unfold details_prefix in Heq.
        cbn [append] in Heq. now injection Heq as ->.
      * split; [discriminate|].
        intros H. specialize (H "" a t Ep). subst a. discriminate Ea.
    + rewrite IH.
      split; [|exact Hcons]. intros H. apply Htail; [exact H|].
      intros a t Heq. rewrite Heq in Ep.
      unfold details_prefix in Ep. rewrite strip_prefix_app in Ep.
      discriminate Ep.
Qed.

Lemma search_details_Some (s : string) :
  forall i m, search detailsRegex i s = Some m -> embeds_details s.
Proof.
  induction s as [|c s IH]; intros i m; rewrite search_eq, run_details.
  - discriminate.
  - destruct (strip_prefix _ (String c s)) as [[|a t]|] eqn:Ep.
    + intros H. destruct (IH _ _ H) as (pre & a & t & Ha & ->).
      now exists (String c pre), a, t.
    + apply strip_prefix_Some in Ep.
      destruct (Ascii.eqb a "/") eqn:Ea.
      * intros H. destruct (IH _ _ H) as (pre & a' & t' & Ha & ->).
        now exists (String c pre), a', t'.
      * intros _. exists "", a, t. split; [|exact Ep].
        intros ->. discriminate Ea.
    + intros H. destruct (IH _ _ H) as (pre & a & t & Ha & ->).
      now exists (String c pre), a, t.
Qed.

(** A URL of the details form resolves to its identifier. *)
Lemma getIdentifierFromUrl_details (id u : string) :
  details_url id u -> getIdentifierFromUrl u = Some id.
Proof.
  intros (Hne & Hid & trailing & Htr & ->).
  unfold getIdentifierFromUrl, exec. rewrite search_eq, run_details.
  unfold details_prefix. rewrite strip_prefix_app.
  destruct id as [|a id]; [contradiction|].
  simpl in Hid. apply andb_prop in Hid as [Ha Hid].
  cbn [append]. destruct (Ascii.eqb a "/"); [discriminate|].
  cbn [caps groups nth].
  rewrite (span_len_segment "/" id trailing Hid Htr).
  now rewrite take_app_length.
Qed.

(** Resolution fails exactly on the strings that embed no occurrence
    of the details prefix in front of an identifier character. *)
Lemma getIdentifierFromUrl_None (u : string) :
  getIdentifierFromUrl u = None <-> ~ embeds_details u.
Proof.
  unfold getIdentifierFromUrl, exec.
  destruct (search detailsRegex 0 u) eqn:Es.
  - split; [discriminate|]. intros H. exfalso. apply H.
    eapply search_details_Some; eassumption.
  - split; [|reflexivity]. intros _ (pre & a & t & Ha & Heq).
    apply Ha. eapply search_details_None; eassumption.
Qed.

End ResolverFacts.

(** ** The configured URL *)

Section ConfigFacts.

Import JsString.

Lemma run_Bol (i : nat) (s : string) (cs : list string) (k : cont) :
  run Bol (mkState i s cs) k =
  if Nat.eqb i 0 then k (mkState i s cs) else None.
Proof. reflexivity. Qed.

Lemma is_segment_spec (r : string) :
  is_segment r = true <->
  exists id, id <> "" /\ lacks "/" id = true /\ r = String "/" id.
Proof.
  split.
  - destruct r as [|c [|a t]]; simpl; try discriminate.
    intros H. apply andb_prop in H as [H Ht]. apply andb_prop in H as [Hc Ha].
    apply Ascii.eqb_eq in Hc. subst c.
    exists (String a t). simpl. rewrite Ha, Ht. now repeat split.
  - intros (id & Hne & Hid & ->). destruct id as [|a t]; [contradiction|].
    simpl in *. assumption.
Qed.

Lemma run_segment (i : nat) (r : string) (cs : list string) :
  run (Seq (Chr "/") (Seq (Plus (NotChr "/")) Eol)) (mkState i r cs) Some =
  if is_segment r then Some (mkState (i + String.length r) "" cs) else None.
Proof.
  rewrite run_Seq. destruct r as [|c r]; [reflexivity|].
  cbn [run rest pos caps is_segment].
  destruct (Ascii.eqb c "/"); [|now destruct r].
  destruct r as [|a t]; [reflexivity|].
  cbn [rest pos caps andb].
  destruct (Ascii.eqb a "/"); [reflexivity|].
  change (fun y : mstate =>
            match rest y with
            | "" => Some y
            | String _ _ => None
            end) with (fun y : mstate => run Eol y Some).
  change (fun (x : mstate) (k : cont) =>
            match rest x with
            | "" => None
            | String a0 s' =>
                if Ascii.eqb a0 "/" then None
                else k (mkState (S (pos x)) s' (caps x))
            end) with (run (NotChr "/")).
  rewrite repeat0_to_end by apply Nat.le_refl. cbn [negb].
  destruct (lacks "/" t); [|reflexivity].
  cbn [run rest]. simpl. now rewrite !Nat.add_succ_r.
Qed.

Lemma run_validUrl (u : string) :
  run validUrlRegex (mkState 0 u []) Some <> None <->
  exists seg r,
    (seg = "details" \/ seg = "metadata") /\ is_segment r = true /\
    u = "https://archive.org/" ++ seg ++ r.
Proof.
  unfold validUrlRegex.
  rewrite run_Seq, run_Bol. cbn [Nat.eqb].
  rewrite run_Seq, run_lit. cbn [rest pos caps].
  destruct (strip_prefix _ u) as [r1|] eqn:E1.
  - apply strip_prefix_Some in E1. subst u.
    rewrite run_Seq, run_Group, run_Alt, !run_lit. cbn [rest pos caps].
    split.
    + destruct (strip_prefix "details" r1) as [r2|] eqn:E2.
      * apply strip_prefix_Some in E2. subst r1.
        rewrite run_segment.
        destruct (is_segment r2) eqn:Es.
        -- intros _. exists "details", r2. auto.
        -- simpl. intros H. now contradiction H.
      * destruct (strip_prefix "metadata" r1) as [r2|] eqn:E3;
          [|intros H; now contradiction H].
        apply strip_prefix_Some in E3. subst r1.
        rewrite run_segment.
        destruct (is_segment r2) eqn:Es; [|intros H; now contradiction H].
        intros _. exists "metadata", r2. auto.
    + intros (seg & r & Hseg & Hr & Heq).
      assert (r1 = seg ++ r) as ->.
      { revert Heq. generalize (seg ++ r). intros s Heq.
        simpl in Heq. now injection Heq. }
      destruct Hseg as [-> | ->].
      * rewrite (strip_prefix_app "details" r), run_segment, Hr.
        discriminate.
      * simpl strip_prefix at 1.
        rewrite (strip_prefix_app "metadata" r), run_segment, Hr.
        discriminate.
  - split; [intros H; now contradiction H|].
    intros (seg & r & _ & _ & ->).
    rewrite strip_prefix_app in E1. discriminate E1.
Qed.

Lemma search_validUrl_later (s : string) :
  forall i, search validUrlRegex (S i) s = None.
Proof.
  induction s as [|c s IH]; intros i; rewrite search_eq;
    unfold validUrlRegex; rewrite run_Seq, run_Bol; cbn [Nat.eqb];
    [reflexivity|apply IH].
Qed.

Lemma canonical_url_segment (u : string) :
  canonical_url u <->
  exists seg r,
    (seg = "details" \/ seg = "metadata") /\ is_segment r = true /\
    u = "https://archive.org/" ++ seg ++ r.
Proof.
  split.
  - intros (id & Hne & Hid & [-> | ->]).
    + exists "details", (String "/" id). repeat split; auto.
      apply is_segment_spec. now exists id.
    + exists "metadata", (String "/" id). repeat split; auto.
      apply is_segment_spec. now exists id.
  - intros (seg & r & Hseg & Hr & ->).
    apply is_segment_spec in Hr as (id & Hne & Hid & ->).
    exists id. repeat split; auto.
    destruct Hseg as [-> | ->]; [left|right]; reflexivity.
Qed.

(** The anchored pattern holds exactly of the canonical URLs. *)
Lemma test_validUrl (u : string) :
  test validUrlRegex u = true <-> canonical_url u.
Proof.
  rewrite canonical_url_segment, <- run_validUrl.
  unfold test, exec. rewrite search_eq.
  destruct (run validUrlRegex (mkState 0 u []) Some).
  - split; [discriminate|reflexivity].
  - destruct u; [|rewrite search_validUrl_later];
      (split; [discriminate|intros H; now contradiction H]).
Qed.

Lemma strict_keys (o : list (string * json)) :
  forallb (fun kv => existsb (String.eqb (fst kv)) ["url"]) o = true <->
  only_field "url" o.
Proof.
  unfold only_field. rewrite forallb_forall. split.
  - intros H k v Hin. specialize (H _ Hin). simpl in H.
    rewrite orb_false_r in H. now apply String.eqb_eq in H.
  - intros H [k v] Hin. simpl. rewrite (H _ _ Hin). reflexivity.
Qed.

End ConfigFacts.

(** The strict config schema, member by member. *)
Lemma configSchema_accepts (parses : string -> bool) (config : json)
    (cfg : Config) :
  configSchema parses (Some config) = Some cfg <->
  exists o u,
    config = JObj o /\ only_field "url" o /\
    field "url" o = Some (JStr u) /\
    parses u = true /\ canonical_url u /\
    cfg = mkConfig u.
Proof.
  unfold configSchema, Zod.strict. split.
  - destruct config as [| | | | |o]; try discriminate.
    destruct (forallb _ o) eqn:Hkeys; [|discriminate].
    apply strict_keys in Hkeys.
    unfold Zod.refine, Zod.bind, Zod.string.
    destruct (field "url" o) as [[| | |u| |]|] eqn:Hfield; try discriminate.
    destruct (parses u) eqn:Hurl; [|discriminate].
    destruct (test validUrlRegex u) eqn:Hre; [|discriminate].
    intros H. injection H as <-.
    apply test_validUrl in Hre.
    exists o, u. repeat split; assumption.
  - intros (o & u & -> & Hkeys & Hfield & Hurl & Hcanon & ->).
    apply strict_keys in Hkeys. rewrite Hkeys.
    unfold Zod.refine, Zod.bind, Zod.string.
    rewrite Hfield, Hurl.
    apply test_validUrl in Hcanon. now rewrite Hcanon.
Qed.

(** A canonical URL as the only field is accepted as it stands. *)
Lemma configSchema_canonical (parses : string -> bool) (u : string) :
  parses u = true -> canonical_url u ->
  configSchema parses (Some (JObj [("url", JStr u)])) = Some (mkConfig u).
Proof.
  intros Hp Hc. apply configSchema_accepts.
  exists [("url", JStr u)], u. repeat split; auto.
  - intros k v [H|[]]. now inversion H.
Qed.


(** ** The orchestrator *)

Section LoopFacts.

Variable P : Locals -> Prop.

Lemma keeps_ret {A : Type} (a : A) : keeps P (ret a).
Proof. intros s r s' H. now inversion H. Qed.

Lemma keeps_gets {A : Type} (f : World * Locals -> A) : keeps P (gets f).
Proof. intros s r s' H. now inversion H. Qed.

Lemma keeps_zoom {A : Type} (m : M World A) : keeps P (zoom m).
Proof.
  intros [w l] r s'. unfold zoom; simpl.
  destruct (m w) as [r0 w']. intros H. now inversion H.
Qed.

Lemma keeps_modify (f : World * Locals -> World * Locals) :
  (forall s, P (snd s) -> P (snd (f s))) -> keeps P (modify f).
Proof. intros Hf s r s' H. inversion H. apply Hf. Qed.

Lemma keeps_bind {A B : Type} (m : M (World * Locals) A)
    (f : A -> M (World * Locals) B) :
  keeps P m -> (forall a, keeps P (f a)) -> keeps P (bindM m f).
Proof.
  intros Hm Hf s r s'. unfold bindM.
  destruct (m s) as [[a|e] s1] eqn:Em; intros H Hs.
  - eapply Hf; [eassumption|]. eapply Hm; eassumption.
  - inversion H; subst. eapply Hm; eassumption.
Qed.

Lemma keeps_try_catch {A : Type} (body : M (World * Locals) A)
    (handler : exn -> M (World * Locals) A) :
  keeps P body -> (forall e, keeps P (handler e)) ->
  keeps P (try_catch body handler).
Proof.
  intros Hb Hh s r s'. unfold try_catch.
  destruct (body s) as [[a|e] s1] eqn:Eb; intros H Hs.
  - inversion H; subst. eapply Hb; eassumption.
  - eapply Hh; [eassumption|]. eapply Hb; eassumption.
Qed.

Lemma keeps_for_of {A : Type} (l : list A)
    (body : A -> M (World * Locals) unit) :
  (forall x, keeps P (body x)) -> keeps P (for_of l body).
Proof.
  intros Hb. induction l as [|x l IH]; simpl.
  - apply keeps_ret.
  - apply keeps_bind; [apply Hb|intros _; apply IH].
Qed.

End LoopFacts.

Section OrchestratorFacts.

Variable E : Env.

Lemma download_one_none_failed (sourceId outputDir : string)
    (archiveData : ArchiveResponse) (total : nat) (file : File) :
  keeps none_failed (download_one E sourceId outputDir archiveData total file).
Proof.
  unfold download_one, push_successful, set_documentId.
  repeat
    match goal with
    | |- keeps _ (zoom _) => apply keeps_zoom
    | |- keeps _ (gets _) => apply keeps_gets
    | |- keeps _ (try_catch _ _) => apply keeps_try_catch
    | |- keeps _ (bindM _ _) => apply keeps_bind
    | |- keeps _ (modify _) => apply keeps_modify; intros [w l] Hl; exact Hl
    | |- forall _, keeps _ _ => intro
    | |- keeps _ (let _ := _ in _) => cbv zeta
    end.
Qed.

(** Whatever happens to the files, the list of failed names comes
    back empty: nothing in the loop ever adds to it. *)
Lemma downloadFiles_none_failed (sourceId : string) (config : json)
    (outputDir : string) (fileFilter : option (File -> bool))
    (w w' : World) (r : DownloadResult) :
  downloadFiles E sourceId config outputDir fileFilter w = (Ok r, w') ->
  failed r = [].
Proof.
  unfold downloadFiles.
  destruct (configSchema _ _); [|discriminate].
  unfold bindM at 1.
  destruct (getArchiveData E (url c) w) as [[archiveData|e] w1];
    [|discriminate].
  unfold bindM at 1. cbn [logger modify].
  match goal with
  | |- context [for_of ?l ?b ?s0] =>
      destruct (for_of l b s0) as [[u|e] [w2 locals]] eqn:Eloop;
      pose proof (keeps_for_of none_failed l b
                    (download_one_none_failed _ _ _ _) _ _ _ Eloop
                    eq_refl) as Hinv
  end; [|discriminate].
  unfold bindM, logger, modify, ret. intros H. inversion H; subst.
  exact Hinv.
Qed.

(** A creation that is turned down leaves the handler without an id:
    its status update is rejected and the rejection leaves the loop. *)
Lemma download_one_create_rejected (sourceId outputDir : string)
    (archiveData : ArchiveResponse) (total : nat) (file : File)
    (w : World) (l : Locals) :
  document_create_ok E (creates w) = false ->
  fst (download_one E sourceId outputDir archiveData total file (w, l)) =
  Throw (PrismaError "Argument `id` must not be null.").
Proof.
  intros Hc. unfold download_one, bindM, try_catch, zoom, next_uuid,
    set_documentId, gets, modify, logger, Db.document_create,
    Db.document_update.
  cbn. rewrite Hc. reflexivity.
Qed.

(** A body that the schema turns down surfaces as the fetch failure. *)
Lemma getArchiveData_invalid_body (u id : string) (body : json) (w : World) :
  getIdentifierFromUrl u = Some id ->
  metadata_get E ("/metadata/" ++ id) = Some body ->
  archiveResponseSchema (Some body) = None ->
  fst (getArchiveData E u w) =
  Throw (Error "Failed to fetch metadata from Archive.org").
Proof.
  intros Hid Hget Hbad. unfold getArchiveData. rewrite Hid.
  unfold try_catch, bindM, axios_get. rewrite Hget.
  unfold ret. cbv beta iota. rewrite Hbad. reflexivity.
Qed.

(** A snapshot that is returned is the whole body, validated. *)
Lemma getArchiveData_validated (u : string) (w w' : World)
    (snapshot : ArchiveResponse) :
  getArchiveData E u w = (Ok snapshot, w') ->
  exists id body,
    getIdentifierFromUrl u = Some id /\
    metadata_get E ("/metadata/" ++ id) = Some body /\
    archiveResponseSchema (Some body) = Some snapshot.
Proof.
  unfold getArchiveData.
  destruct (getIdentifierFromUrl u) as [id|]; [|discriminate].
  unfold try_catch, bindM, axios_get.
  destruct (metadata_get E ("/metadata/" ++ id)) as [body|] eqn:Eg;
    [|discriminate].
  unfold ret. cbv beta iota.
  destruct (archiveResponseSchema (Some body)) as [parsed|] eqn:Ep;
    [|discriminate].
  intros H. inversion H; subst. now exists id, body.
Qed.

Lemma has_new_document (docs : list Document) (i sourceId path : string)
    (status : Status) :
  existsb (Db.has_id i) (docs ++ [mkDocument i sourceId path status]) = true.
Proof.
  rewrite existsb_app. simpl. unfold Db.has_id at 2. simpl.
  rewrite String.eqb_refl. now rewrite orb_true_r.
Qed.

(** With its document row created, one turn of the loop ends normally
    whether or not the transfer does, and has requested the file. *)
Lemma download_one_attempts (sourceId outputDir : string)
    (archiveData : ArchiveResponse) (total : nat) (file : File)
    (w : World) (l : Locals) :
  document_create_ok E (creates w) = true ->
  exists w' l',
    download_one E sourceId outputDir archiveData total file (w, l) =
      (Ok tt, (w', l')) /\
    map fst (transfers w') =
      (map fst (transfers w) ++ [getDownloadUrl archiveData (name file)])%list.
Proof.
  intros Hc.
  unfold download_one, bindM, try_catch, zoom, next_uuid, set_documentId,
    push_successful, gets, modify, logger, Db.document_create, downloadFile,
    stream_to_file, try_catch, bindM, logger, modify, throw.
  cbn [fst snd creates uuids document transfers minted log documentSource
       arrays documentId successful failed].
  rewrite Hc.
  cbn [fst snd creates uuids document transfers minted log documentSource
       arrays documentId successful failed doc_id].
  destruct (transfer_ok E _ _ _);
    cbn [fst snd creates uuids document transfers minted log documentSource
         arrays documentId successful failed doc_id];
    unfold Db.document_update;
    cbn [fst snd creates uuids document transfers minted log documentSource
         arrays documentId successful failed doc_id];
    rewrite has_new_document;
    cbn [fst snd creates uuids document transfers minted log documentSource
         arrays documentId successful failed doc_id];
    eexists; eexists; (split; [reflexivity|]);
    cbn [transfers]; now rewrite map_app.
Qed.

(** A transfer that breaks off never stops the batch: as long as the
    document rows can be created, the loop runs to its end and requests
    every selected file, in order. *)
Lemma batch_attempts_every_file (sourceId outputDir : string)
    (archiveData : ArchiveResponse) (total : nat) (selected : list File) :
  (forall n, document_create_ok E n = true) ->
  forall (w : World) (l : Locals),
  exists w' l',
    for_of selected (download_one E sourceId outputDir archiveData total)
      (w, l) = (Ok tt, (w', l')) /\
    map fst (transfers w') =
      (map fst (transfers w) ++
       map (fun f => getDownloadUrl archiveData (name f)) selected)%list.
Proof.
  intros Hc. induction selected as [|file rest0 IH]; intros w l.
  - exists w, l. simpl. now rewrite app_nil_r.
  - destruct (download_one_attempts sourceId outputDir archiveData total
                file w l (Hc _)) as (w1 & l1 & Hone & Ht1).
    destruct (IH w1 l1) as (w2 & l2 & Hrest & Ht2).
    exists w2, l2. cbn [for_of]. unfold bindM at 1. rewrite Hone.
    split; [exact Hrest|].
    rewrite Ht2, Ht1. cbn [map]. now rewrite <- app_assoc.
Qed.

End OrchestratorFacts.

(** ** The file schema *)

Section SchemaFacts.

Lemma sizeSchema_string (s : string) :
  sizeSchema (Some (JStr s)) = Some (Some (parseInt s 10)).
Proof. reflexivity. Qed.

Lemma sizeSchema_number (n : number) :
  isNaN n = false -> sizeSchema (Some (JNum n)) = Some (Some n).
Proof.
  intros H. unfold sizeSchema, Zod.optional, Zod.transform, Zod.union,
    Zod.string, Zod.number. now rewrite H.
Qed.

(** The [size] of a parsed file is what the size member made of the
    [size] property. *)
Lemma fileSchema_size (o : list (string * json)) (f : File) :
  fileSchema (Some (JObj o)) = Some f ->
  sizeSchema (field "size" o) = Some (size f).
Proof.
  unfold fileSchema, Zod.object. intros H.
  repeat match type of H with
         | Zod.bind ?m _ = Some _ =>
             destruct m eqn:?; [cbn [Zod.bind] in H|discriminate H]
         end.
  now inversion H.
Qed.

(** The size member stands alone: an accepted entry stays accepted
    when only its [size] changes to something the size member takes. *)
Lemma fileSchema_size_independent (o o' : list (string * json)) (f : File)
    (sz : option number) :
  fileSchema (Some (JObj o)) = Some f ->
  (forall k, k <> "size" -> field k o' = field k o) ->
  sizeSchema (field "size" o') = Some sz ->
  fileSchema (Some (JObj o')) = Some (with_size f sz).
Proof.
  intros Hf Hother Hsz.
  unfold fileSchema, Zod.object in *.
  rewrite Hsz. rewrite !Hother by discriminate.
  repeat match type of Hf with
         | Zod.bind ?m _ = Some _ =>
             destruct m eqn:?; [cbn [Zod.bind] in Hf|discriminate Hf]
         end.
  cbn [Zod.bind]. now inversion Hf.
Qed.

End SchemaFacts.

(** ** Registration *)

Section RegistrarFacts.

Lemma find_app_None {A : Type} (p : A -> bool) (l l' : list A) :
  find p l = None -> find p (l ++ l') = find p l'.
Proof.
  induction l as [|x l IH]; simpl; [reflexivity|].
  destruct (p x); [discriminate|exact IH].
Qed.

Lemma filter_find_None {A : Type} (p : A -> bool) (l : list A) :
  find p l = None -> filter p l = [].
Proof.
  induction l as [|x l IH]; simpl; [reflexivity|].
  destruct (p x); [discriminate|exact IH].
Qed.

Lemma source_matches_new (u id : string) :
  Db.source_matches "archive.org files" ["url"] u
    (mkDocumentSource id "archive.org files" (config_json (mkConfig u)))
  = true.
Proof.
  unfold Db.source_matches, config_json. simpl.
  now rewrite String.eqb_refl.
Qed.

End RegistrarFacts.

(** ** Metadata URLs *)

Section MetadataFacts.

Import JsString.

Lemma search_details_lacks (s : string) (i : nat) :
  lacks "/" s = true -> search detailsRegex i s = None.
Proof.
  intros Hs. apply search_details_None. intros pre a t ->.
  rewrite lacks_app in Hs. apply andb_prop in Hs as [_ Hs].
  unfold details_prefix in Hs. simpl in Hs. discriminate Hs.
Qed.

(** No metadata URL with a slash-free identifier resolves. *)
Lemma getIdentifierFromUrl_metadata (id : string) :
  lacks "/" id = true ->
  getIdentifierFromUrl (metadata_prefix ++ id) = None.
Proof.
  intros Hid. unfold getIdentifierFromUrl, exec, metadata_prefix.
  cbn [append].
  do 29 (rewrite search_eq, run_details; simpl strip_prefix; cbv iota).
  now rewrite search_details_lacks.
Qed.

(** Every config of the metadata shape passes validation and then
    stops the orchestrator at identifier resolution. *)
Lemma downloadFiles_metadata_url (E : Env) (id sourceId outputDir : string)
    (fileFilter : option (File -> bool)) (w : World) :
  id <> "" -> lacks "/" id = true ->
  url_parses E (metadata_prefix ++ id) = true ->
  validateConfig E (JObj [("url", JStr (metadata_prefix ++ id))]) =
    Some (mkConfig (metadata_prefix ++ id)) /\
  downloadFiles E sourceId (JObj [("url", JStr (metadata_prefix ++ id))])
    outputDir fileFilter w =
    (Throw (Error "Invalid Archive.org URL"), w).
Proof.
  intros Hne Hid Hp.
  assert (Hcfg : configSchema (url_parses E)
                   (Some (JObj [("url", JStr (metadata_prefix ++ id))])) =
                 Some (mkConfig (metadata_prefix ++ id))).
  { apply configSchema_canonical; [exact Hp|]. exists id. auto. }
  split; [exact Hcfg|].
  unfold downloadFiles. rewrite Hcfg. unfold bindM, getArchiveData.
  cbn [url]. now rewrite getIdentifierFromUrl_metadata.
Qed.

End MetadataFacts.

(** ** The unit tests of the resolver, and the schemas on samples *)

Example resolves_details_url :
  getIdentifierFromUrl "https://archive.org/details/kuwaitalyawm" =
  Some "kuwaitalyawm".
Proof. reflexivity. Qed.

Example resolves_with_trailing_segments :
  getIdentifierFromUrl "https://archive.org/details/some-collection/extra/path"
  = Some "some-collection".
Proof. reflexivity. Qed.

Example resolves_special_characters :
  getIdentifierFromUrl "https://archive.org/details/collection-name_123" =
  Some "collection-name_123".
Proof. reflexivity. Qed.

Example rejects_other_host :
  getIdentifierFromUrl "https://example.com/details/something" = None.
Proof. reflexivity. Qed.

Example rejects_without_details :
  getIdentifierFromUrl "https://archive.org/search?query=test" = None.
Proof. reflexivity. Qed.

Example rejects_empty_identifier :
  getIdentifierFromUrl "https://archive.org/details/" = None.
Proof. reflexivity. Qed.

Example rejects_non_url :
  getIdentifierFromUrl "not-a-url" = None.
Proof. reflexivity. Qed.

Example rejects_empty_string :
  getIdentifierFromUrl "" = None.
Proof. reflexivity. Qed.

Example parseInt_decimal : to_Z (parseInt "12345" 10) = Some 12345%Z.
Proof. reflexivity. Qed.

Example parseInt_stops_at_unit : to_Z (parseInt "  -42px" 10) = Some (-42)%Z.
Proof. reflexivity. Qed.

Example extension_of_archive :
  JsString.pop (JsString.split "." "scan.tar.gz") = Some "gz".
Proof. reflexivity. Qed.

Example sample_body_validates :
  option_map (fun r => List.length (files r))
    (archiveResponseSchema (Some Sample.three_files)) = Some 3.
Proof. vm_compute. reflexivity. Qed.

Example config_with_extra_field_rejected :
  validateConfig Sample.calm
    (JObj [("url", JStr "https://archive.org/details/foo");
           ("token", JStr "x")]) = None.
Proof. vm_compute. reflexivity. Qed.

Example config_with_trailing_segment_rejected :
  validateConfig Sample.calm
    (JObj [("url", JStr "https://archive.org/details/foo/bar")]) = None.
Proof. vm_compute. reflexivity. Qed.

(** The earlier orchestrator, on the batch whose second transfer breaks
    off, does report the name. *)
Example downloadFilesFromUrl_records_failed_name :
  fst (downloadFilesFromUrl Sample.second_transfer_fails
         "https://archive.org/details/foo" "./downloads" None
         Sample.empty_world) =
  Ok (mkDownloadResult ["./downloads/a.pdf"; "./downloads/c.txt"] ["b.pdf"]).
Proof. vm_compute. reflexivity. Qed.

(** * The claims of the specification *)

(** C1.  A batch of three files whose second transfer breaks off, every
    document row being created: all three files are attempted, the
    first and third land in [successful] with their generated paths and
    the second row ends in ERROR, yet [failed] comes back empty where
    the claim wants the name [b.pdf] in it. *)
Theorem downloadFiles_loses_failed_name :
  fst (downloadFiles Sample.second_transfer_fails "src1"
         Sample.details_config "./downloads" None Sample.empty_world) =
    Ok (mkDownloadResult
          ["./downloads/uuid0.pdf"; "./downloads/uuid2.txt"] []) /\
  transfers (snd (downloadFiles Sample.second_transfer_fails "src1"
                    Sample.details_config "./downloads" None
                    Sample.empty_world)) =
    [("https://ia600.us.archive.org/12/items/foo/a.pdf",
      "./downloads/uuid0.pdf");
     ("https://ia600.us.archive.org/12/items/foo/b.pdf",
      "./downloads/uuid1.pdf");
     ("https://ia600.us.archive.org/12/items/foo/c.txt",
      "./downloads/uuid2.txt")] /\
  map doc_status
    (document (snd (downloadFiles Sample.second_transfer_fails "src1"
                      Sample.details_config "./downloads" None
                      Sample.empty_world))) =
    [READY; ERROR; READY].
Proof. vm_compute. repeat split. Qed.

(** C2.  A batch of three files whose first document row cannot be
    created: the handler updates the status of a document it has no id
    for, that update is rejected, and the rejection ends the whole call;
    no file is transferred, the two later files are never reached. *)
Theorem downloadFiles_create_rejection_aborts :
  fst (downloadFiles Sample.first_create_rejected "src1"
         Sample.details_config "./downloads" None Sample.empty_world) =
    Throw (PrismaError "Argument `id` must not be null.") /\
  transfers (snd (downloadFiles Sample.first_create_rejected "src1"
                    Sample.details_config "./downloads" None
                    Sample.empty_world)) = [] /\
  uuids (snd (downloadFiles Sample.first_create_rejected "src1"
                Sample.details_config "./downloads" None
                Sample.empty_world)) = 1.
Proof. vm_compute. repeat split. Qed.

(** C3.  A metadata body without its [files] array is turned down by the
    schema, but what [getArchiveData] rejects with is the message of the
    fetch failure: the error for the invalid structure is thrown inside
    the [try] whose [catch] replaces it. *)
Theorem getArchiveData_masks_invalid_structure :
  archiveResponseSchema (Some Sample.no_files) = None /\
  fst (getArchiveData Sample.serves_no_files
         "https://archive.org/details/foo" Sample.empty_world) =
    Throw (Error "Failed to fetch metadata from Archive.org") /\
  map snd (log (snd (getArchiveData Sample.serves_no_files
                       "https://archive.org/details/foo"
                       Sample.empty_world))) =
    ["Invalid response structure from Archive.org";
     "Error fetching metadata from Archive.org"].
Proof. vm_compute. repeat split. Qed.

(** C4.  A URL on another host that carries a details URL in its query
    is not of the details form, and still resolves to an identifier:
    the pattern is searched for anywhere in the string. *)
Theorem getIdentifierFromUrl_matches_inside :
  (forall id,
     ~ details_url id
         "https://example.com/?next=https://archive.org/details/foo") /\
  getIdentifierFromUrl
    "https://example.com/?next=https://archive.org/details/foo" = Some "foo".
Proof.
  split; [|reflexivity].
  intros id (_ & _ & trailing & _ & H).
  unfold details_prefix in H. cbn [append] in H. discriminate H.
Qed.

(** C5.  [validateConfig] accepts a value exactly when it is an object
    whose only field is [url], holding a string that parses as a URL and
    has the canonical details or metadata shape with one slash-free
    identifier; the accepted config carries that URL, and every other
    value is answered with [null], the function being total. *)
Theorem validateConfig_accepts_iff (E : Env) (config : json) (cfg : Config) :
  validateConfig E config = Some cfg <->
  exists o u,
    config = JObj o /\ only_field "url" o /\
    field "url" o = Some (JStr u) /\
    url_parses E u = true /\ canonical_url u /\
    cfg = mkConfig u.
Proof. apply configSchema_accepts. Qed.

Lemma validateConfig_accepts_iff_witness :
  validateConfig Sample.calm Sample.details_config =
  Some (mkConfig "https://archive.org/details/foo").
Proof.
  apply (proj2 (validateConfig_accepts_iff Sample.calm Sample.details_config
                  (mkConfig "https://archive.org/details/foo"))).
  exists [("url", JStr "https://archive.org/details/foo")],
    "https://archive.org/details/foo".
  repeat split.
  - intros k v [H|[]]. now inversion H.
  - exists "foo". repeat split; [discriminate|now left].
Defined.

(** C6.  The config with the URL [https://archive.org/metadata/foo] is
    accepted by the validator, and [downloadFiles] then rejects with
    the invalid-URL error before any request is made: the resolver
    knows the details path only. *)
Theorem downloadFiles_metadata_config_invalid_url :
  validateConfig Sample.calm Sample.metadata_config =
    Some (mkConfig "https://archive.org/metadata/foo") /\
  downloadFiles Sample.calm "src1" Sample.metadata_config "./downloads" None
    Sample.empty_world =
    (Throw (Error "Invalid Archive.org URL"), Sample.empty_world).
Proof. vm_compute. repeat split. Qed.

(** C7.  A file entry whose other members the schema takes is accepted
    with a [size] arriving as the string "12345", and its size comes
    out as the number 12345; it is accepted with a [size] arriving as
    a number, and its size comes out as that number.  So it is for the
    sample entry; and in any accepted entry the size is what these two
    rules make of the [size] member. *)
Theorem fileSchema_size_normalized :
  (fileSchema (Some (JObj Sample.pdf_entry)) =
     Some (Sample.pdf_file (Some (of_Z 12345))) /\
   to_Z (of_Z 12345) = Some 12345%Z) /\
  (forall (o o' : list (string * json)) (f : File),
     fileSchema (Some (JObj o)) = Some f ->
     (forall k, k <> "size" -> field k o' = field k o) ->
     field "size" o' = Some (JStr "12345") ->
     fileSchema (Some (JObj o')) = Some (with_size f (Some (of_Z 12345)))) /\
  (forall (o o' : list (string * json)) (f : File) (n : number),
     fileSchema (Some (JObj o)) = Some f ->
     (forall k, k <> "size" -> field k o' = field k o) ->
     isNaN n = false ->
     field "size" o' = Some (JNum n) ->
     fileSchema (Some (JObj o')) = Some (with_size f (Some n))) /\
  (forall (o : list (string * json)) (f : File),
     fileSchema (Some (JObj o)) = Some f ->
     (field "size" o = Some (JStr "12345") -> size f = Some (of_Z 12345)) /\
     (forall n, field "size" o = Some (JNum n) -> size f = Some n)).
Proof.
  split; [split; reflexivity|]. split; [|split].
  - intros o o' f Hf Hother Hs.
    apply (fileSchema_size_independent o o' f _ Hf Hother).
    rewrite Hs. reflexivity.
  - intros o o' f n Hf Hother Hnan Hs.
    apply (fileSchema_size_independent o o' f _ Hf Hother).
    rewrite Hs. now apply sizeSchema_number.
  - intros o f H. apply fileSchema_size in H. split.
    + intros Hs. rewrite Hs, sizeSchema_string in H. now injection H as <-.
    + intros n Hn. rewrite Hn in H.
      unfold sizeSchema, Zod.optional, Zod.transform, Zod.union, Zod.string,
        Zod.number in H.
      destruct (isNaN n); [discriminate H|]. now injection H as <-.
Qed.

Lemma fileSchema_size_normalized_witness :
  fileSchema
    (Some (JObj [("size", JNum (of_Z 12345)); ("name", JStr "a.pdf");
                 ("format", JStr "Text PDF")])) =
  Some (with_size (Sample.pdf_file (Some (of_Z 12345))) (Some (of_Z 12345))).
Proof.
  apply (proj1 (proj2 (proj2 fileSchema_size_normalized))
           Sample.pdf_entry
           [("size", JNum (of_Z 12345)); ("name", JStr "a.pdf");
            ("format", JStr "Text PDF")]
           (Sample.pdf_file (Some (of_Z 12345))) (of_Z 12345));
    try reflexivity.
  intros k Hk. unfold Sample.pdf_entry. cbn [field].
  destruct (String.eqb "size" k) eqn:Ek.
  - apply String.eqb_eq in Ek. now contradiction Hk.
  - destruct (String.eqb "name" k); [reflexivity|].
    destruct (String.eqb "format" k); reflexivity.
Defined.

(** C8.  The download URL is the concatenation of [https://], the
    server, the directory, a slash and the file name; for the server
    [ia600.us.archive.org], the directory [/12/items/foo] and the name
    [bar.pdf] it is [https://ia600.us.archive.org/12/items/foo/bar.pdf];
    and that URL is the one [downloadFile] requests. *)
Theorem getDownloadUrl_concatenates (E : Env) (archiveData : ArchiveResponse)
    (fileName outputPath : string) (w : World) :
  getDownloadUrl archiveData fileName =
    String.concat "" ["https://"; server archiveData; dir archiveData; "/";
                      fileName] /\
  (server archiveData = "ia600.us.archive.org" ->
   dir archiveData = "/12/items/foo" ->
   getDownloadUrl archiveData "bar.pdf" =
     "https://ia600.us.archive.org/12/items/foo/bar.pdf") /\
  transfers (snd (downloadFile E archiveData fileName outputPath w)) =
    (transfers w ++ [(getDownloadUrl archiveData fileName, outputPath)])%list.
Proof.
  split; [reflexivity|]. split.
  - intros Hs Hd. unfold getDownloadUrl. now rewrite Hs, Hd.
  - unfold downloadFile, try_catch, bindM, stream_to_file, logger, modify.
    cbn. now destruct (transfer_ok E _ _ _).
Qed.

Lemma getDownloadUrl_concatenates_witness :
  getDownloadUrl Sample.snapshot "bar.pdf" =
  "https://ia600.us.archive.org/12/items/foo/bar.pdf".
Proof.
  exact (proj1 (proj2 (getDownloadUrl_concatenates Sample.calm
                         Sample.snapshot "bar.pdf" "./downloads/x.pdf"
                         Sample.empty_world)) eq_refl eq_refl).
Defined.

(** C9.  Registering a valid config that is not yet in the store, twice
    in a row: the first call appends a new data source and returns it;
    the second is rejected as a duplicate carrying the id of that
    record and leaves the store alone, which then holds exactly one
    data source for the type and URL. *)
Theorem createSource_twice (E : Env) (config : json) (cfg : Config)
    (w : World) :
  validateConfig E config = Some cfg ->
  registered (url cfg) w = [] ->
  exists created w1,
    createSource E config w = (Ok created, w1) /\
    documentSource w1 = (documentSource w ++ [created])%list /\
    src_type created = "archive.org files" /\
    src_config created = config_json cfg /\
    createSource E config w1 =
      (Throw (DuplicateError "Data source already exists"
                (Some (src_id created))), w1) /\
    registered (url cfg) w1 = [created].
Proof.
  intros Hcfg Hnone.
  assert (Hfind : find (Db.source_matches "archive.org files" ["url"]
                          (url cfg)) (documentSource w) = None).
  { unfold registered in Hnone.
    destruct (find _ (documentSource w)) as [r|] eqn:Ef; [|reflexivity].
    apply find_some in Ef as [Hin Hm].
    assert (Hr : In r (filter (Db.source_matches "archive.org files" ["url"]
                                 (url cfg)) (documentSource w)))
      by (apply filter_In; auto).
    rewrite Hnone in Hr. contradiction. }
  destruct cfg as [u]. cbn [url] in *.
  unfold createSource. rewrite Hcfg.
  unfold bindM, Db.documentSource_findFirst, gets. cbn [url].
  rewrite Hfind.
  cbn [Db.documentSource_create ret url].
  eexists. eexists. split; [reflexivity|].
  cbn [documentSource src_type src_config src_id].
  repeat split.
  - rewrite (find_app_None _ _ _ Hfind). cbn [find].
    now rewrite source_matches_new.
  - unfold registered in *. cbn [documentSource].
    rewrite filter_app, Hnone. cbn [filter app].
    now rewrite source_matches_new.
Qed.

Lemma createSource_twice_witness :
  exists created w1,
    createSource Sample.calm Sample.details_config Sample.empty_world =
      (Ok created, w1) /\
    documentSource w1 = (documentSource Sample.empty_world ++ [created])%list /\
    src_type created = "archive.org files" /\
    src_config created =
      config_json (mkConfig "https://archive.org/details/foo") /\
    createSource Sample.calm Sample.details_config w1 =
      (Throw (DuplicateError "Data source already exists"
                (Some (src_id created))), w1) /\
    registered "https://archive.org/details/foo" w1 = [created].
Proof.
  exact (createSource_twice Sample.calm Sample.details_config
           (mkConfig "https://archive.org/details/foo") Sample.empty_world
           eq_refl eq_refl).
Defined.

(** C10.  A [size] arriving as a string is never a reason to turn a
    file entry down: the size member maps any string through
    [parseInt]; two entries that differ only in their string sizes are
    accepted together; "abc" becomes NaN, which is not an integer; and
    a metadata body holding such a file validates with that size. *)
Theorem fileSchema_string_size_unchecked :
  (forall s, sizeSchema (Some (JStr s)) = Some (Some (parseInt s 10))) /\
  (forall (o o' : list (string * json)) (s s' : string) (f : File),
     field "size" o = Some (JStr s) ->
     field "size" o' = Some (JStr s') ->
     (forall k, k <> "size" -> field k o' = field k o) ->
     fileSchema (Some (JObj o)) = Some f ->
     fileSchema (Some (JObj o')) =
       Some (with_size f (Some (parseInt s' 10)))) /\
  (parseInt "abc" 10 = NaN /\ isInteger NaN = false) /\
  (exists snapshot f,
     archiveResponseSchema
       (Some (Sample.response [Sample.file_entry "a.pdf" (JStr "abc")])) =
       Some snapshot /\
     In f (files snapshot) /\ size f = Some NaN).
Proof.
  split; [exact sizeSchema_string|]. split; [|split].
  - intros o o' s s' f _ Hs' Hother Hf.
    apply (fileSchema_size_independent o o' f _ Hf Hother).
    now rewrite Hs', sizeSchema_string.
  - split; reflexivity.
  - eexists. eexists. split; [vm_compute; reflexivity|].
    split; [left; reflexivity|reflexivity].
Qed.

Lemma fileSchema_string_size_unchecked_witness :
  fileSchema (Some (JObj Sample.odd_entry)) =
  Some (with_size (Sample.pdf_file (Some (of_Z 12345))) (Some (parseInt "abc" 10))).
Proof.
  apply (proj1 (proj2 fileSchema_string_size_unchecked)
           Sample.pdf_entry Sample.odd_entry "12345" "abc"
           (Sample.pdf_file (Some (of_Z 12345))));
    try reflexivity.
  intros k Hk. unfold Sample.odd_entry, Sample.pdf_entry. cbn [field].
  destruct (String.eqb "size" k) eqn:Ek.
  - apply String.eqb_eq in Ek. now contradiction Hk.
  - destruct (String.eqb "name" k); [reflexivity|].
    destruct (String.eqb "format" k); reflexivity.
Defined.


(** * Further properties of the sources *)

(** ** Names and extensions *)

Section SplitFacts.

Import JsString.

Lemma split_nonempty (c : ascii) (s : string) : split c s <> [].
Proof.
  destruct s as [|a s]; simpl; [discriminate|].
  destruct (Ascii.eqb a c); [discriminate|].
  destruct (split c s); discriminate.
Qed.

Lemma pop_single (x : string) : pop [x] = Some x.
Proof. reflexivity. Qed.

Lemma pop_cons (x y : string) (l : list string) :
  pop (x :: y :: l) = pop (y :: l).
Proof.
  unfold pop. simpl rev.
  destruct (rev l ++ [y])%list as [|z r] eqn:Er.
  - destruct (rev l); discriminate Er.
  - reflexivity.
Qed.

(** The last piece of a split, and how the string ends in it. *)
Lemma split_last (c : ascii) (s : string) :
  exists e,
    pop (split c s) = Some e /\ lacks c e = true /\
    ((split c s = [e] /\ s = e) \/
     (exists pre, s = pre ++ String c e) /\ 2 <= List.length (split c s)).
Proof.
  induction s as [|a s IH].
  - exists "". simpl. repeat split; auto.
  - destruct IH as (e & Hpop & He & Hshape). simpl.
    destruct (split c s) as [|p q] eqn:Es; [now apply split_nonempty in Es|].
    destruct (Ascii.eqb a c) eqn:Ea.
    + apply Ascii.eqb_eq in Ea. subst a.
      exists e. rewrite pop_cons. repeat split; auto. right.
      split; [|simpl; lia].
      destruct Hshape as [[_ ->]|[[pre ->] _]].
      * now exists "".
      * now exists (String c pre).
    + destruct Hshape as [[Hs ->]|[[pre ->] Hlen]].
      * injection Hs as -> ->. exists (String a e). simpl. rewrite Ea.
        repeat split; auto.
      * destruct q as [|q0 r]; [simpl in Hlen; lia|].
        exists e. rewrite pop_cons. rewrite pop_cons in Hpop.
        repeat split; auto. right.
        split; [now exists (String a pre)|simpl; lia].
Qed.

Lemma concat_cons (sep x y : string) (l : list string) :
  String.concat sep (x :: y :: l) = x ++ sep ++ String.concat sep (y :: l).
Proof. reflexivity. Qed.

End SplitFacts.

(** Joining the pieces of a split with the separator gives the
    string back. *)
Theorem split_join (c : ascii) (s : string) :
  String.concat (String c "") (JsString.split c s) = s.
Proof.
  induction s as [|a s IH]; [reflexivity|].
  simpl JsString.split.
  destruct (JsString.split c s) as [|p q] eqn:Es;
    [now apply split_nonempty in Es|].
  destruct (Ascii.eqb a c) eqn:Ea.
  - apply Ascii.eqb_eq in Ea. subst a.
    rewrite concat_cons, IH. reflexivity.
  - destruct q as [|q0 r].
    + simpl in *. now rewrite IH.
    + rewrite concat_cons. rewrite concat_cons in IH.
      change (String a (p ++ String c "" ++
                        String.concat (String c "") (q0 :: r)) = String a s).
      now rewrite IH.
Qed.

(** X1.  The extension a generated file name takes from the remote name
    is never [undefined]: it is the part of the name after its last
    dot, free of dots, or the whole name when that has no dot. *)
Theorem extension_of_name (n : string) :
  exists e,
    JsString.pop (JsString.split "." n) = Some e /\
    JsString.lacks "." e = true /\
    (n = e \/ exists pre, n = pre ++ String "." e) /\
    (JsString.lacks "." n = true -> e = n).
Proof.
  destruct (split_last "." n) as (e & Hpop & He & Hshape).
  exists e. repeat split; auto.
  - destruct Hshape as [[_ ->]|[Hpre _]]; auto.
  - intros Hn. destruct Hshape as [[_ ->]|[[pre ->] _]]; [reflexivity|].
    rewrite lacks_app in Hn. apply andb_prop in Hn as [_ Hn].
    simpl in Hn. discriminate Hn.
Qed.

Lemma extension_of_name_witness :
  exists e,
    JsString.pop (JsString.split "." "README") = Some e /\
    JsString.lacks "." e = true /\
    ("README" = e \/ exists pre, "README" = pre ++ String "." e) /\
    (JsString.lacks "." "README" = true -> e = "README").
Proof. exact (extension_of_name "README"). Defined.

(** ** What the resolver returns *)

Section ResolverMore.

Import JsString.

Lemma take_span_lacks (c : ascii) (t : string) :
  lacks c (take (span_len c t) t) = true.
Proof.
  induction t as [|a t IH]; simpl; [reflexivity|].
  destruct (Ascii.eqb a c) eqn:Ea; simpl; [reflexivity|].
  now rewrite Ea, IH.
Qed.

Lemma take_drop (n : nat) (t : string) : take n t ++ drop n t = t.
Proof.
  revert t; induction n as [|n IH]; intros [|a t]; simpl; try reflexivity.
  now rewrite IH.
Qed.

Lemma drop_span_starts (c : ascii) (t : string) :
  drop (span_len c t) t = "" \/ exists r, drop (span_len c t) t = String c r.
Proof.
  induction t as [|a t IH]; simpl; [now left|].
  destruct (Ascii.eqb a c) eqn:Ea; simpl; [|exact IH].
  apply Ascii.eqb_eq in Ea. subst a. right. now exists t.
Qed.

Lemma search_details_capture (s : string) :
  forall i m,
    search detailsRegex i s = Some m ->
    exists pre a t,
      s = pre ++ details_prefix ++ String a t /\ a <> "/"%char /\
      groups m = [String a (take (span_len "/" t) t)].
Proof.
  induction s as [|c s IH]; intros i m; rewrite search_eq, run_details.
  - discriminate.
  - destruct (strip_prefix _ (String c s)) as [[|a t]|] eqn:Ep.
    + intros H. destruct (IH _ _ H) as (pre & a & t & -> & Ha & Hg).
      now exists (String c pre), a, t.
    + apply strip_prefix_Some in Ep.
      destruct (Ascii.eqb a "/") eqn:Ea.
      * intros H. destruct (IH _ _ H) as (pre & a' & t' & -> & Ha & Hg).
        now exists (String c pre), a', t'.
      * intros H. injection H as <-. exists "", a, t.
        repeat split; auto. intros ->. discriminate Ea.
    + intros H. destruct (IH _ _ H) as (pre & a & t & -> & Ha & Hg).
      now exists (String c pre), a, t.
Qed.

End ResolverMore.

(** X2.  Whatever the resolver returns is a non-empty, slash-free segment
    that stands in the input right behind the details prefix and runs
    up to the next slash or the end. *)
Theorem getIdentifierFromUrl_sound (u id : string) :
  getIdentifierFromUrl u = Some id ->
  id <> "" /\ JsString.lacks "/" id = true /\
  exists pre post,
    u = pre ++ details_prefix ++ id ++ post /\
    (post = "" \/ exists t, post = String "/" t).
Proof.
  unfold getIdentifierFromUrl, exec.
  destruct (search detailsRegex 0 u) as [m|] eqn:Es; [|discriminate].
  destruct (search_details_capture _ _ _ Es) as (pre & a & t & -> & Ha & Hg).
  rewrite Hg. cbn [nth]. intros H. injection H as <-.
  split; [discriminate|]. split.
  - cbn [JsString.lacks]. rewrite take_span_lacks, andb_true_r.
    destruct (Ascii.eqb a "/") eqn:Ea; [|reflexivity].
    apply Ascii.eqb_eq in Ea. contradiction.
  - exists pre, (JsString.drop (JsString.span_len "/" t) t).
    split; [|apply drop_span_starts].
    cbn [append]. now rewrite take_drop.
Qed.

Lemma getIdentifierFromUrl_sound_witness :
  "foo" <> "" /\ JsString.lacks "/" "foo" = true /\
  exists pre post,
    "https://archive.org/details/foo/bar" =
      pre ++ details_prefix ++ "foo" ++ post /\
    (post = "" \/ exists t, post = String "/" t).
Proof.
  exact (getIdentifierFromUrl_sound "https://archive.org/details/foo/bar"
           "foo" eq_refl).
Defined.

(** X3.  Every URL of the details form, with or without further path
    segments, resolves to exactly its identifier. *)
Theorem getIdentifierFromUrl_complete (id u : string) :
  details_url id u -> getIdentifierFromUrl u = Some id.
Proof. apply getIdentifierFromUrl_details. Qed.

Lemma getIdentifierFromUrl_complete_witness :
  getIdentifierFromUrl "https://archive.org/details/some-collection/extra/path"
  = Some "some-collection".
Proof.
  apply (getIdentifierFromUrl_complete "some-collection").
  split; [discriminate|]. split; [reflexivity|].
  exists "/extra/path". split; [right; now exists "extra/path"|reflexivity].
Defined.

(** X4.  The resolver answers [null] exactly on the strings that hold no
    occurrence of the details prefix in front of a character other
    than a slash. *)
Theorem getIdentifierFromUrl_null_iff (u : string) :
  getIdentifierFromUrl u = None <-> ~ embeds_details u.
Proof. apply getIdentifierFromUrl_None. Qed.

Lemma getIdentifierFromUrl_null_iff_witness :
  ~ embeds_details "https://archive.org/details/".
Proof.
  apply (proj1 (getIdentifierFromUrl_null_iff "https://archive.org/details/")).
  reflexivity.
Defined.

(** ** The response schema *)

Section ResponseFacts.

Lemma all_In_None {A : Type} (sch : Zod.schema A) (l : list json) (v : json) :
  In v l -> sch (Some v) = None -> Zod.all sch l = None.
Proof.
  induction l as [|x l IH]; simpl; [contradiction|].
  intros [->|Hin] Hv.
  - now rewrite Hv.
  - rewrite (IH Hin Hv). now destruct (sch (Some x)).
Qed.

Lemma all_length {A : Type} (sch : Zod.schema A) (l : list json) (r : list A) :
  Zod.all sch l = Some r -> List.length r = List.length l.
Proof.
  revert r; induction l as [|x l IH]; simpl; intros r H.
  - now injection H as <-.
  - destruct (sch (Some x)); [|discriminate].
    destruct (Zod.all sch l) as [r'|]; [|discriminate].
    injection H as <-. simpl. now rewrite (IH r').
Qed.

Lemma response_files (o : list (string * json)) (r : ArchiveResponse) :
  archiveResponseSchema (Some (JObj o)) = Some r ->
  Zod.array fileSchema (field "files" o) = Some (files r).
Proof.
  unfold archiveResponseSchema, Zod.object at 1. intros H.
  repeat match type of H with
         | Zod.bind ?m _ = Some _ =>
             destruct m eqn:?; [cbn [Zod.bind] in H|discriminate H]
         end.
  now inversion H.
Qed.

End ResponseFacts.

(** X5.  A body is turned down as soon as one member that is not optional
    is missing, whatever else it holds; so is a body that is not an
    object. *)
Theorem archiveResponseSchema_required (o : list (string * json)) (k : string) :
  In k required_keys -> field k o = None ->
  archiveResponseSchema (Some (JObj o)) = None.
Proof.
  intros Hk Hf. unfold archiveResponseSchema, Zod.object at 1.
  unfold required_keys in Hk. simpl in Hk.
  repeat (destruct Hk as [<-|Hk];
    [rewrite Hf;
     repeat first
       [ reflexivity
       | match goal with
         | |- Zod.bind ?m _ = None =>
             destruct m; [cbn [Zod.bind]|reflexivity]
         end ]|]).
  contradiction.
Qed.

Lemma archiveResponseSchema_required_witness :
  archiveResponseSchema (Some (JObj [("server", JStr "ia600.us.archive.org")]))
  = None.
Proof.
  apply (archiveResponseSchema_required
           [("server", JStr "ia600.us.archive.org")] "files");
    [unfold required_keys; simpl; tauto|reflexivity].
Defined.

(** X6.  One file entry that the file schema turns down is enough for the
    whole body to be turned down: no snapshot comes back with the
    other files. *)
Theorem archiveResponseSchema_bad_entry (o : list (string * json))
    (entries : list json) (entry : json) :
  field "files" o = Some (JArr entries) ->
  In entry entries -> fileSchema (Some entry) = None ->
  archiveResponseSchema (Some (JObj o)) = None.
Proof.
  intros Hf Hin Hbad.
  destruct (archiveResponseSchema (Some (JObj o))) as [r|] eqn:Er;
    [|reflexivity].
  apply response_files in Er. rewrite Hf in Er. simpl in Er.
  now rewrite (all_In_None fileSchema entries entry Hin Hbad) in Er.
Qed.

Lemma archiveResponseSchema_bad_entry_witness :
  archiveResponseSchema
    (Some (Sample.response
             [Sample.file_entry "a.pdf" (JStr "1"); JObj [("name", JStr "b")]]))
  = None.
Proof.
  apply (archiveResponseSchema_bad_entry _
           [Sample.file_entry "a.pdf" (JStr "1"); JObj [("name", JStr "b")]]
           (JObj [("name", JStr "b")]));
    [reflexivity|right; now left|reflexivity].
Defined.

(** X7.  The files of a snapshot are the entries of the [files] array, each
    parsed by the file schema, as many and in the same order. *)
Theorem archiveResponseSchema_keeps_entries (o : list (string * json))
    (r : ArchiveResponse) :
  archiveResponseSchema (Some (JObj o)) = Some r ->
  exists entries,
    field "files" o = Some (JArr entries) /\
    Zod.all fileSchema entries = Some (files r) /\
    List.length (files r) = List.length entries.
Proof.
  intros H. apply response_files in H. unfold Zod.array in H.
  destruct (field "files" o) as [[| | | |entries|]|]; try discriminate.
  exists entries. repeat split; auto. now apply all_length in H.
Qed.

Lemma archiveResponseSchema_keeps_entries_witness :
  exists entries,
    field "files" More.three_props = Some (JArr entries) /\
    Zod.all fileSchema entries = Some (files More.three_snapshot) /\
    List.length (files More.three_snapshot) = List.length entries.
Proof.
  apply (archiveResponseSchema_keeps_entries More.three_props
           More.three_snapshot).
  vm_compute. reflexivity.
Defined.

(** X8.  Members the schema does not name are ignored: two bodies that agree
    on the named members are parsed alike. *)
Theorem archiveResponseSchema_ignores_unknown (o o' : list (string * json)) :
  (forall k, In k response_keys -> field k o' = field k o) ->
  archiveResponseSchema (Some (JObj o')) = archiveResponseSchema (Some (JObj o)).
Proof.
  intros H. unfold archiveResponseSchema, Zod.object at 1 3.
  rewrite !H by (unfold response_keys, required_keys; simpl; tauto).
  reflexivity.
Qed.

(** X9.  A parsed file carries the name and the format of its entry as they
    stand. *)
Theorem fileSchema_name_format (o : list (string * json)) (f : File) :
  fileSchema (Some (JObj o)) = Some f ->
  field "name" o = Some (JStr (name f)) /\
  field "format" o = Some (JStr (format f)).
Proof.
  unfold fileSchema, Zod.object. intros H.
  repeat match type of H with
         | Zod.bind ?m _ = Some _ =>
             destruct m eqn:?; [cbn [Zod.bind] in H|discriminate H]
         end.
  inversion H; subst; cbn [name format].
  repeat match goal with
         | E : Zod.string ?v = Some _ |- _ =>
             destruct v as [[| | |?| |]|]; try discriminate E;
             injection E as <-
         end.
  now split.
Qed.

Lemma fileSchema_name_format_witness :
  field "name" Sample.pdf_entry = Some (JStr "a.pdf") /\
  field "format" Sample.pdf_entry = Some (JStr "Text PDF").
Proof.
  exact (fileSchema_name_format Sample.pdf_entry
           (Sample.pdf_file (Some (of_Z 12345))) eq_refl).
Defined.

(** X11.  Validation is stable: the config that [createSource] stores for an
    accepted value is accepted again, as the same config. *)
Theorem validateConfig_stored (E : Env) (config : json) (cfg : Config) :
  validateConfig E config = Some cfg ->
  validateConfig E (config_json cfg) = Some cfg.
Proof.
  intros H. apply configSchema_accepts in H
    as (o & u & _ & _ & _ & Hp & Hc & ->).
  now apply configSchema_canonical.
Qed.

Lemma validateConfig_stored_witness :
  validateConfig Sample.calm
    (config_json (mkConfig "https://archive.org/details/foo")) =
  Some (mkConfig "https://archive.org/details/foo").
Proof.
  exact (validateConfig_stored Sample.calm Sample.details_config
           (mkConfig "https://archive.org/details/foo") eq_refl).
Defined.

Lemma archiveResponseSchema_ignores_unknown_witness :
  archiveResponseSchema (Some (JObj (("comment", JNull) :: More.three_props)))
  = archiveResponseSchema (Some (JObj More.three_props)).
Proof.
  apply (archiveResponseSchema_ignores_unknown More.three_props
           (("comment", JNull) :: More.three_props)).
  intros k Hk. unfold response_keys, required_keys in Hk. simpl in Hk.
  repeat (destruct Hk as [<-|Hk]; [reflexivity|]). contradiction.
Defined.

(** ** Registration *)

Section RegistrarMore.

Variable E : Env.

Lemma find_filter_head {A : Type} (p : A -> bool) (l : list A) :
  find p l = hd_error (filter p l).
Proof.
  induction l as [|x l IH]; simpl; [reflexivity|].
  destruct (p x); [reflexivity|exact IH].
Qed.

(** The three ways a registration can go. *)
Lemma createSource_cases (config : json) (w : World) :
  (validateConfig E config = None /\
   createSource E config w =
     (Throw (Error "Invalid configuration for archive.org files"), w)) \/
  (exists cfg existing others,
     validateConfig E config = Some cfg /\
     registered (url cfg) w = existing :: others /\
     createSource E config w =
       (Throw (DuplicateError "Data source already exists"
                 (Some (src_id existing))), w)) \/
  (exists cfg,
     validateConfig E config = Some cfg /\
     registered (url cfg) w = [] /\
     createSource E config w =
       (Ok (mkDocumentSource (store_id E (minted w)) "archive.org files"
              (config_json cfg)),
        mkWorld
          (documentSource w ++
           [mkDocumentSource (store_id E (minted w)) "archive.org files"
              (config_json cfg)])
          (document w) (S (minted w)) (creates w) (uuids w) (transfers w)
          (log w))).
Proof.
  unfold createSource.
  destruct (validateConfig E config) as [cfg|] eqn:Hc; [right|now left].
  unfold bindM, Db.documentSource_findFirst, gets.
  rewrite find_filter_head. fold (registered (url cfg) w).
  destruct (registered (url cfg) w) as [|existing others] eqn:Hr.
  - right. exists cfg. auto.
  - left. exists cfg, existing, others. auto.
Qed.

Lemma registered_app (u : string) (w : World) (r : DocumentSource)
    (d : list Document) (m c n : nat) (t : list (string * string))
    (l : list (Level * string)) :
  registered u (mkWorld (documentSource w ++ [r]) d m c n t l) =
  (registered u w ++
   if Db.source_matches "archive.org files" ["url"] u r then [r] else [])%list.
Proof.
  unfold registered. cbn [documentSource]. rewrite filter_app. simpl.
  now destruct (Db.source_matches _ _ u r).
Qed.

Lemma source_matches_url (u u0 id : string) :
  Db.source_matches "archive.org files" ["url"] u
    (mkDocumentSource id "archive.org files" (config_json (mkConfig u0)))
  = String.eqb u0 u.
Proof. reflexivity. Qed.

End RegistrarMore.

(** X12.  A registration that is rejected leaves the world exactly as it was,
    and is rejected for one of two reasons: the config is invalid, or
    the URL is registered already. *)
Theorem createSource_rejection_harmless (E : Env) (config : json)
    (w w' : World) (e : exn) :
  createSource E config w = (Throw e, w') ->
  w' = w /\
  (e = Error "Invalid configuration for archive.org files" \/
   exists id, e = DuplicateError "Data source already exists" (Some id)).
Proof.
  intros H.
  destruct (createSource_cases E config w)
    as [[_ Hr]|[(cfg & ex & others & _ & _ & Hr)|(cfg & _ & _ & Hr)]];
    rewrite Hr in H; inversion H; subst; split; auto.
  right. now exists (src_id ex).
Qed.

Lemma createSource_rejection_harmless_witness :
  Sample.empty_world = Sample.empty_world /\
  (Error "Invalid configuration for archive.org files" =
     Error "Invalid configuration for archive.org files" \/
   exists id,
     Error "Invalid configuration for archive.org files" =
       DuplicateError "Data source already exists" (Some id)).
Proof.
  exact (createSource_rejection_harmless Sample.calm JNull Sample.empty_world
           Sample.empty_world
           (Error "Invalid configuration for archive.org files") eq_refl).
Defined.

(** X13.  When the URL of a valid config is registered already, the call
    is rejected as a duplicate carrying the id of a data source that
    is stored for that URL, and changes nothing. *)
Theorem createSource_duplicate_reports_existing (E : Env) (config : json)
    (cfg : Config) (w : World) :
  validateConfig E config = Some cfg ->
  registered (url cfg) w <> [] ->
  exists existing,
    In existing (registered (url cfg) w) /\
    createSource E config w =
      (Throw (DuplicateError "Data source already exists"
                (Some (src_id existing))), w).
Proof.
  intros Hc Hr.
  destruct (createSource_cases E config w)
    as [[Hn _]|[(cfg' & ex & oth & Hc' & Hr' & H)|(cfg' & Hc' & Hr' & _)]].
  - rewrite Hc in Hn. discriminate.
  - rewrite Hc in Hc'. injection Hc' as <-.
    exists ex. split; [rewrite Hr'; now left|exact H].
  - rewrite Hc in Hc'. injection Hc' as <-. contradiction.
Qed.

(** X14.  Registration keeps the store free of duplicates: if no URL has more
    than one data source before a call, none has after it. *)
Theorem createSource_keeps_unique (E : Env) (config : json) (w w' : World)
    (r : result DocumentSource) :
  createSource E config w = (r, w') ->
  unique_sources w -> unique_sources w'.
Proof.
  intros H Hu.
  destruct (createSource_cases E config w)
    as [[_ Hr]|[(cfg & ex & others & _ & _ & Hr)|(cfg & _ & Hnone & Hr)]];
    rewrite Hr in H; inversion H; subst; auto.
  intros u. rewrite registered_app. destruct cfg as [u0].
  rewrite source_matches_url. cbn [url] in Hnone.
  destruct (String.eqb u0 u) eqn:Eu.
  - apply String.eqb_eq in Eu. subst u0. rewrite Hnone. simpl. lia.
  - rewrite app_nil_r. apply Hu.
Qed.

Lemma createSource_duplicate_reports_existing_witness :
  exists existing,
    In existing
      (registered "https://archive.org/details/foo" More.registered_world) /\
    createSource Sample.calm Sample.details_config More.registered_world =
      (Throw (DuplicateError "Data source already exists"
                (Some (src_id existing))), More.registered_world).
Proof.
  apply (createSource_duplicate_reports_existing Sample.calm
           Sample.details_config (mkConfig "https://archive.org/details/foo")
           More.registered_world);
    [reflexivity|discriminate].
Defined.

Lemma createSource_keeps_unique_witness : unique_sources More.registered_world.
Proof.
  apply (createSource_keeps_unique Sample.calm Sample.details_config
           Sample.empty_world More.registered_world
           (Ok (mkDocumentSource "row0" "archive.org files"
                  (JObj [("url", JStr "https://archive.org/details/foo")])))).
  - reflexivity.
  - intros u. simpl. lia.
Defined.

(** ** Fetching the metadata *)

Section FetcherMore.

Variable E : Env.

(** The four ways a fetch can go. *)
Lemma getArchiveData_cases (u : string) (w : World) :
  (getIdentifierFromUrl u = None /\
   getArchiveData E u w = (Throw (Error "Invalid Archive.org URL"), w)) \/
  (exists id,
     getIdentifierFromUrl u = Some id /\
     metadata_get E ("/metadata/" ++ id) = None /\
     getArchiveData E u w =
       (Throw (Error "Failed to fetch metadata from Archive.org"),
        with_log w [(error, "Error fetching metadata from Archive.org")])) \/
  (exists id body,
     getIdentifierFromUrl u = Some id /\
     metadata_get E ("/metadata/" ++ id) = Some body /\
     archiveResponseSchema (Some body) = None /\
     getArchiveData E u w =
       (Throw (Error "Failed to fetch metadata from Archive.org"),
        with_log w [(error, "Invalid response structure from Archive.org");
                    (error, "Error fetching metadata from Archive.org")])) \/
  (exists id body snapshot,
     getIdentifierFromUrl u = Some id /\
     metadata_get E ("/metadata/" ++ id) = Some body /\
     archiveResponseSchema (Some body) = Some snapshot /\
     getArchiveData E u w = (Ok snapshot, w)).
Proof.
  unfold getArchiveData.
  destruct (getIdentifierFromUrl u) as [id|]; [right|now left].
  unfold try_catch, bindM, axios_get.
  destruct (metadata_get E ("/metadata/" ++ id)) as [body|] eqn:Eg.
  - right. unfold ret. cbv beta iota.
    destruct (archiveResponseSchema (Some body)) as [snapshot|] eqn:Ep.
    + right. exists id, body, snapshot. auto.
    + left. exists id, body. repeat split; auto.
      unfold logger, modify, throw, with_log. cbn.
      now rewrite <- app_assoc.
  - left. exists id. repeat split; auto.
Qed.

End FetcherMore.

(** X16.  A fetch only reads: whatever its outcome, the tables of the store,
    the counters and the transfers are as before, and a fetch that
    succeeds leaves no trace at all. *)
Theorem getArchiveData_reads_only (E : Env) (u : string) (w w' : World)
    (r : result ArchiveResponse) :
  getArchiveData E u w = (r, w') ->
  same_store w w' /\ transfers w' = transfers w /\
  (forall snapshot, r = Ok snapshot -> w' = w).
Proof.
  intros H.
  destruct (getArchiveData_cases E u w)
    as [[_ Hr]|[(id & _ & _ & Hr)|[(id & b & _ & _ & _ & Hr)
       |(id & b & sn & _ & _ & _ & Hr)]]];
    rewrite Hr in H; inversion H; subst;
    repeat split; auto; discriminate.
Qed.

(** X17.  A fetch is rejected with one of two fixed messages and nothing
    else: the invalid-URL message exactly when the resolver finds no
    identifier, the fetch-failure message exactly when it finds one and
    the request fails or the body is turned down by the schema. *)
Theorem getArchiveData_rejections (E : Env) (u : string) (w : World) (e : exn) :
  fst (getArchiveData E u w) = Throw e <->
  (e = Error "Invalid Archive.org URL" /\ getIdentifierFromUrl u = None) \/
  (e = Error "Failed to fetch metadata from Archive.org" /\
   exists id,
     getIdentifierFromUrl u = Some id /\
     (metadata_get E ("/metadata/" ++ id) = None \/
      exists body,
        metadata_get E ("/metadata/" ++ id) = Some body /\
        archiveResponseSchema (Some body) = None)).
Proof.
  destruct (getArchiveData_cases E u w)
    as [[Hn Hr]|[(id & Hi & Hg & Hr)|[(id & b & Hi & Hg & Hb & Hr)
       |(id & b & sn & Hi & Hg & Hb & Hr)]]];
    rewrite Hr; cbn [fst]; split.
  - intros H. injection H as <-. now left.
  - intros [[-> _]|[_ (id & Hi & _)]]; [reflexivity|].
    rewrite Hn in Hi. discriminate.
  - intros H. injection H as <-. right. split; [reflexivity|].
    exists id. auto.
  - intros [[_ Hn]|[-> _]]; [|reflexivity].
    rewrite Hi in Hn. discriminate.
  - intros H. injection H as <-. right. split; [reflexivity|].
    exists id. split; [exact Hi|]. right. now exists b.
  - intros [[_ Hn]|[-> _]]; [|reflexivity].
    rewrite Hi in Hn. discriminate.
  - discriminate.
  - intros [[_ Hn]|[_ (id' & Hi' & [Hg'|(b' & Hg' & Hb')])]].
    + rewrite Hi in Hn. discriminate.
    + rewrite Hi in Hi'. injection Hi' as <-. rewrite Hg in Hg'.
      discriminate.
    + rewrite Hi in Hi'. injection Hi' as <-. rewrite Hg in Hg'.
      injection Hg' as <-. rewrite Hb in Hb'. discriminate.
Qed.

(** A transfer that completes lets [downloadFile] return; one that
    breaks off makes it reject with a message that names the file and
    nothing of the transport.  Either way the store is as before. *)
Theorem downloadFile_outcome (E : Env) (archiveData : ArchiveResponse)
    (fileName outputPath : string) (w : World) :
  fst (downloadFile E archiveData fileName outputPath w) =
    (if transfer_ok E (List.length (transfers w))
          (getDownloadUrl archiveData fileName) outputPath
     then Ok tt
     else Throw (Error ("Failed to download file: " ++ fileName))) /\
  same_store w (snd (downloadFile E archiveData fileName outputPath w)).
Proof.
  unfold downloadFile, try_catch, bindM, stream_to_file, logger, modify,
    throw, same_store.
  cbn. now destruct (transfer_ok E _ _ _).
Qed.

Lemma getArchiveData_reads_only_witness :
  same_store Sample.empty_world Sample.empty_world /\
  transfers Sample.empty_world = transfers Sample.empty_world /\
  (forall snapshot,
     Ok More.three_snapshot = Ok snapshot ->
     Sample.empty_world = Sample.empty_world).
Proof.
  exact (getArchiveData_reads_only Sample.calm
           "https://archive.org/details/foo" Sample.empty_world
           Sample.empty_world (Ok More.three_snapshot) eq_refl).
Defined.

Lemma getArchiveData_rejections_witness :
  fst (getArchiveData Sample.serves_no_files "https://archive.org/details/foo"
         Sample.empty_world) =
  Throw (Error "Failed to fetch metadata from Archive.org").
Proof.
  apply (proj2 (getArchiveData_rejections Sample.serves_no_files
                  "https://archive.org/details/foo" Sample.empty_world
                  (Error "Failed to fetch metadata from Archive.org"))).
  right. split; [reflexivity|]. exists "foo". split; [reflexivity|].
  right. exists Sample.no_files. split; reflexivity.
Defined.

(** ** The batch *)

Section BatchMore.

Variable E : Env.

(** One turn of the loop whose document row is created, in full. *)
Lemma download_one_served (sourceId outputDir : string)
    (archiveData : ArchiveResponse) (total : nat) (file : File)
    (w : World) (l : Locals) :
  document_create_ok E (creates w) = true ->
  exists w' l' st,
    download_one E sourceId outputDir archiveData total file (w, l) =
      (Ok tt, (w', l')) /\
    (st = READY \/ st = ERROR) /\
    documentSource w' = documentSource w /\
    document w' =
      map (Db.set_status (store_id E (minted w)) st)
        (document w ++
         [mkDocument (store_id E (minted w)) sourceId
            (generated_path E outputDir file w) DOWNLOADING]) /\
    transfers w' =
      (transfers w ++
       [(getDownloadUrl archiveData (name file),
         generated_path E outputDir file w)])%list /\
    failed (arrays l') = failed (arrays l) /\
    successful (arrays l') =
      (successful (arrays l) ++
       match st with
       | READY => [generated_path E outputDir file w]
       | _ => []
       end)%list.
Proof.
  intros Hc.
  unfold download_one, bindM, try_catch, zoom, next_uuid, set_documentId,
    push_successful, gets, modify, logger, Db.document_create, downloadFile,
    stream_to_file, try_catch, bindM, logger, modify, throw, generated_path.
  cbn [fst snd creates uuids document transfers minted log documentSource
       arrays documentId successful failed].
  rewrite Hc.
  cbn [fst snd creates uuids document transfers minted log documentSource
       arrays documentId successful failed doc_id].
  destruct (transfer_ok E _ _ _);
    cbn [fst snd creates uuids document transfers minted log documentSource
         arrays documentId successful failed doc_id];
    unfold Db.document_update;
    cbn [fst snd creates uuids document transfers minted log documentSource
         arrays documentId successful failed doc_id];
    rewrite has_new_document;
    cbn [fst snd creates uuids document transfers minted log documentSource
         arrays documentId successful failed doc_id].
  - eexists; eexists; exists READY. split; [reflexivity|].
    cbn [documentSource document transfers arrays failed successful].
    repeat split; auto.
  - eexists; eexists; exists ERROR. split; [reflexivity|].
    cbn [documentSource document transfers arrays failed successful].
    repeat split; auto. now rewrite app_nil_r.
Qed.

Lemma set_status_settles (i : string) (st : Status) (d : Document) :
  st = READY \/ st = ERROR ->
  settled d \/ doc_id d = i -> settled (Db.set_status i st d).
Proof.
  intros Hst Hd. unfold Db.set_status, Db.has_id, settled in *.
  destruct (String.eqb (doc_id d) i) eqn:Ei; simpl.
  - destruct Hst as [->| ->]; discriminate.
  - destruct Hd as [Hd|Hd]; [exact Hd|].
    apply String.eqb_neq in Ei. contradiction.
Qed.

(** The whole loop, every document row being created. *)
Lemma batch_served (sourceId outputDir : string)
    (archiveData : ArchiveResponse) (total : nat) (selected : list File) :
  (forall n, document_create_ok E n = true) ->
  forall (w : World) (l : Locals) (n0 : nat),
    n0 <= List.length (document w) ->
    Forall settled (skipn n0 (document w)) ->
    exists w' l',
      for_of selected (download_one E sourceId outputDir archiveData total)
        (w, l) = (Ok tt, (w', l')) /\
      documentSource w' = documentSource w /\
      List.length (document w') =
        List.length (document w) + List.length selected /\
      Forall settled (skipn n0 (document w')) /\
      map fst (transfers w') =
        (map fst (transfers w) ++
         map (fun f => getDownloadUrl archiveData (name f)) selected)%list /\
      failed (arrays l') = failed (arrays l).
Proof.
  intros Hc. induction selected as [|file rest0 IH]; intros w l n0 Hn Hs.
  - exists w, l. simpl. rewrite app_nil_r, Nat.add_0_r. repeat split; auto.
  - destruct (download_one_served sourceId outputDir archiveData total
                file w l (Hc _))
      as (w1 & l1 & st & Hone & Hst & Hsrc & Hdoc & Htr & Hf & _).
    assert (Hlen1 : List.length (document w1) = S (List.length (document w))).
    { rewrite Hdoc, length_map, length_app. simpl. lia. }
    assert (Hs1 : Forall settled (skipn n0 (document w1))).
    { rewrite Hdoc, skipn_map, skipn_app.
      replace (n0 - List.length (document w)) with 0 by lia.
      cbn [skipn]. rewrite map_app. apply Forall_app. split.
      - apply Forall_map. eapply Forall_impl; [|exact Hs].
        intros d Hd. apply set_status_settles; auto.
      - constructor; [|constructor].
        apply set_status_settles; auto. }
    destruct (IH w1 l1 n0 ltac:(lia) Hs1)
      as (w2 & l2 & Hrest & Hsrc2 & Hlen2 & Hs2 & Htr2 & Hf2).
    exists w2, l2. cbn [for_of]. unfold bindM at 1. rewrite Hone.
    split; [exact Hrest|].
    rewrite Hsrc2, Hsrc, Hlen2, Hlen1, Htr2, Htr, Hf2, Hf.
    repeat split; auto; try (simpl; lia).
    rewrite map_app. cbn [map fst]. now rewrite <- app_assoc.
Qed.

End BatchMore.

Section BatchTheorems.

Variable E : Env.

(** A batch whose config is valid, whose snapshot arrives and whose
    document rows can all be created. *)
Lemma downloadFiles_served (sourceId : string) (config : json) (cfg : Config)
    (outputDir : string) (fileFilter : option (File -> bool))
    (w w1 : World) (archiveData : ArchiveResponse) :
  validateConfig E config = Some cfg ->
  getArchiveData E (url cfg) w = (Ok archiveData, w1) ->
  (forall n, document_create_ok E n = true) ->
  exists r w',
    downloadFiles E sourceId config outputDir fileFilter w = (Ok r, w') /\
    documentSource w' = documentSource w /\
    List.length (document w') =
      List.length (document w) +
      List.length (selected_files fileFilter archiveData) /\
    Forall settled (skipn (List.length (document w)) (document w')) /\
    map fst (transfers w') =
      (map fst (transfers w) ++
       map (fun f => getDownloadUrl archiveData (name f))
         (selected_files fileFilter archiveData))%list.
Proof.
  intros Hc Hg Hserved.
  assert (w1 = w) as ->.
  { destruct (getArchiveData_cases E (url cfg) w)
      as [[_ Hr]|[(id & _ & _ & Hr)|[(id & b & _ & _ & _ & Hr)
         |(id & b & sn & _ & _ & _ & Hr)]]];
      rewrite Hr in Hg; now inversion Hg. }
  unfold validateConfig in Hc. unfold downloadFiles. rewrite Hc.
  unfold bindM at 1. rewrite Hg.
  fold (selected_files fileFilter archiveData).
  unfold bindM at 1. cbn [logger modify].
  match goal with
  | |- context [for_of ?sel ?body (?w0, ?l0)] =>
      destruct (batch_served E sourceId outputDir archiveData
                  (List.length sel) sel Hserved w0 l0
                  (List.length (document w)))
        as (w2 & l2 & Hloop & Hsrc & Hlen & Hs & Htr & _)
  end.
  - cbn [document]. lia.
  - cbn [document]. rewrite skipn_all. constructor.
  - rewrite Hloop. unfold bindM, logger, modify, ret.
    eexists. eexists. split; [reflexivity|].
    cbn [documentSource document transfers] in *.
    repeat split; auto.
Qed.

Lemma download_one_rejected (sourceId outputDir : string)
    (archiveData : ArchiveResponse) (total : nat) (file : File)
    (w : World) (l : Locals) :
  document_create_ok E (creates w) = false ->
  exists w' l',
    download_one E sourceId outputDir archiveData total file (w, l) =
      (Throw (PrismaError "Argument `id` must not be null."), (w', l')) /\
    transfers w' = transfers w.
Proof.
  intros Hc.
  unfold download_one, bindM, try_catch, zoom, next_uuid, set_documentId,
    gets, logger, modify, Db.document_create, Db.document_update.
  cbn [fst snd creates uuids document transfers minted log documentSource
       arrays documentId successful failed].
  rewrite Hc.
  cbn [fst snd creates uuids document transfers minted log documentSource
       arrays documentId successful failed].
  eexists. eexists. split; reflexivity.
Qed.

Lemma for_of_first_throws {S A : Type} (body : A -> M S unit) (x : A)
    (l : list A) (s s' : S) (e : exn) :
  body x s = (Throw e, s') -> for_of (x :: l) body s = (Throw e, s').
Proof. intros H. cbn [for_of]. unfold bindM. now rewrite H. Qed.

End BatchTheorems.

(** X18.  With a valid config, a snapshot that arrives and document rows that
    can be created, a batch never rejects, whatever the transfers do,
    and requests exactly the files the filter keeps (all of them
    without a filter), each once, in the order of the snapshot. *)
Theorem downloadFiles_requests_selected (E : Env) (sourceId : string)
    (config : json) (cfg : Config) (outputDir : string)
    (fileFilter : option (File -> bool)) (w w1 : World)
    (archiveData : ArchiveResponse) :
  validateConfig E config = Some cfg ->
  getArchiveData E (url cfg) w = (Ok archiveData, w1) ->
  (forall n, document_create_ok E n = true) ->
  exists r w',
    downloadFiles E sourceId config outputDir fileFilter w = (Ok r, w') /\
    map fst (transfers w') =
      (map fst (transfers w) ++
       map (fun f => getDownloadUrl archiveData (name f))
         (selected_files fileFilter archiveData))%list.
Proof.
  intros Hc Hg Hs.
  destruct (downloadFiles_served E sourceId config cfg outputDir fileFilter
              w w1 archiveData Hc Hg Hs)
    as (r & w' & H & _ & _ & _ & Ht).
  now exists r, w'.
Qed.

Lemma downloadFiles_requests_selected_witness :
  exists r w',
    downloadFiles Sample.second_transfer_fails "src1" Sample.details_config
      "./downloads" (Some pdf_or_txt) Sample.empty_world = (Ok r, w') /\
    map fst (transfers w') =
      (map fst (transfers Sample.empty_world) ++
       map (fun f => getDownloadUrl More.three_snapshot (name f))
         (selected_files (Some pdf_or_txt) More.three_snapshot))%list.
Proof.
  apply (downloadFiles_requests_selected Sample.second_transfer_fails "src1"
           Sample.details_config (mkConfig "https://archive.org/details/foo")
           "./downloads" (Some pdf_or_txt) Sample.empty_world
           Sample.empty_world More.three_snapshot);
    [reflexivity|vm_compute; reflexivity|intros n; reflexivity].
Defined.

(** X19.  Under the same conditions a batch leaves the data sources alone and
    adds one document row for each selected file, none of which is
    still DOWNLOADING when the batch returns. *)
Theorem downloadFiles_settles_documents (E : Env) (sourceId : string)
    (config : json) (cfg : Config) (outputDir : string)
    (fileFilter : option (File -> bool)) (w w1 : World)
    (archiveData : ArchiveResponse) :
  validateConfig E config = Some cfg ->
  getArchiveData E (url cfg) w = (Ok archiveData, w1) ->
  (forall n, document_create_ok E n = true) ->
  exists r w',
    downloadFiles E sourceId config outputDir fileFilter w = (Ok r, w') /\
    documentSource w' = documentSource w /\
    List.length (document w') =
      List.length (document w) +
      List.length (selected_files fileFilter archiveData) /\
    Forall settled (skipn (List.length (document w)) (document w')).
Proof.
  intros Hc Hg Hs.
  destruct (downloadFiles_served E sourceId config cfg outputDir fileFilter
              w w1 archiveData Hc Hg Hs)
    as (r & w' & H & Hsrc & Hlen & Hst & _).
  now exists r, w'.
Qed.

Lemma downloadFiles_settles_documents_witness :
  exists r w',
    downloadFiles Sample.second_transfer_fails "src1" Sample.details_config
      "./downloads" None Sample.empty_world = (Ok r, w') /\
    documentSource w' = documentSource Sample.empty_world /\
    List.length (document w') =
      List.length (document Sample.empty_world) +
      List.length (selected_files None More.three_snapshot) /\
    Forall settled
      (skipn (List.length (document Sample.empty_world)) (document w')).
Proof.
  apply (downloadFiles_settles_documents Sample.second_transfer_fails "src1"
           Sample.details_config (mkConfig "https://archive.org/details/foo")
           "./downloads" None Sample.empty_world Sample.empty_world
           More.three_snapshot);
    [reflexivity|vm_compute; reflexivity|intros n; reflexivity].
Defined.

(** X20.  A batch that returns reports no failed name, whatever happened to
    its files: nothing in the loop adds to that list. *)
Theorem downloadFiles_reports_no_failure (E : Env) (sourceId : string)
    (config : json) (outputDir : string) (fileFilter : option (File -> bool))
    (w w' : World) (r : DownloadResult) :
  downloadFiles E sourceId config outputDir fileFilter w = (Ok r, w') ->
  failed r = [].
Proof. apply downloadFiles_none_failed. Qed.

Lemma downloadFiles_reports_no_failure_witness :
  failed (mkDownloadResult
            ["./downloads/uuid0.pdf"; "./downloads/uuid2.txt"] []) = [].
Proof.
  apply (downloadFiles_reports_no_failure Sample.second_transfer_fails "src1"
           Sample.details_config "./downloads" None Sample.empty_world
           (snd (downloadFiles Sample.second_transfer_fails "src1"
                   Sample.details_config "./downloads" None
                   Sample.empty_world))).
  vm_compute. reflexivity.
Defined.

(** X21.  When the document row of the first selected file cannot be created,
    the batch rejects with the store's complaint about the missing id,
    and no file has been requested. *)
Theorem downloadFiles_aborts_on_rejected_creation (E : Env)
    (sourceId : string) (config : json) (cfg : Config) (outputDir : string)
    (fileFilter : option (File -> bool)) (w w1 : World)
    (archiveData : ArchiveResponse) (file : File) (others : list File) :
  validateConfig E config = Some cfg ->
  getArchiveData E (url cfg) w = (Ok archiveData, w1) ->
  selected_files fileFilter archiveData = file :: others ->
  document_create_ok E (creates w) = false ->
  fst (downloadFiles E sourceId config outputDir fileFilter w) =
    Throw (PrismaError "Argument `id` must not be null.") /\
  transfers (snd (downloadFiles E sourceId config outputDir fileFilter w)) =
    transfers w.
Proof.
  intros Hc Hg Hsel Hrej.
  assert (w1 = w) as ->.
  { destruct (getArchiveData_cases E (url cfg) w)
      as [[_ Hr]|[(id & _ & _ & Hr)|[(id & b & _ & _ & _ & Hr)
         |(id & b & sn & _ & _ & _ & Hr)]]];
      rewrite Hr in Hg; now inversion Hg. }
  assert (H : exists w',
            downloadFiles E sourceId config outputDir fileFilter w =
              (Throw (PrismaError "Argument `id` must not be null."), w') /\
            transfers w' = transfers w).
  { unfold validateConfig in Hc. unfold downloadFiles. rewrite Hc.
    unfold bindM at 1. rewrite Hg.
    fold (selected_files fileFilter archiveData). rewrite Hsel.
    unfold bindM at 1. cbn [logger modify].
    match goal with
    | |- context [for_of _ ?body (?w0, ?l0)] =>
        destruct (download_one_rejected E sourceId outputDir archiveData
                    (List.length (file :: others)) file w0 l0 Hrej)
          as (w2 & l2 & Hone & Htr);
        rewrite (for_of_first_throws body file others _ _ _ Hone)
    end.
    cbn [transfers] in Htr. now exists w2. }
  destruct H as (w' & -> & Ht). now split.
Qed.

Lemma downloadFiles_aborts_on_rejected_creation_witness :
  fst (downloadFiles Sample.first_create_rejected "src1"
         Sample.details_config "./downloads" None Sample.empty_world) =
    Throw (PrismaError "Argument `id` must not be null.") /\
  transfers (snd (downloadFiles Sample.first_create_rejected "src1"
                    Sample.details_config "./downloads" None
                    Sample.empty_world)) =
    transfers Sample.empty_world.
Proof.
  apply (downloadFiles_aborts_on_rejected_creation
           Sample.first_create_rejected "src1" Sample.details_config
           (mkConfig "https://archive.org/details/foo") "./downloads" None
           Sample.empty_world Sample.empty_world More.three_snapshot
           (nth 0 (files More.three_snapshot) (Sample.pdf_file None))
           (tl (files More.three_snapshot)));
    [reflexivity|vm_compute; reflexivity|reflexivity|reflexivity].
Defined.

(** A config of the metadata shape is accepted by the validator and
    then always stops the batch at identifier resolution, before any
    request and without a trace. *)
Theorem downloadFiles_rejects_metadata_urls (E : Env)
    (id sourceId outputDir : string) (fileFilter : option (File -> bool))
    (w : World) :
  id <> "" -> JsString.lacks "/" id = true ->
  url_parses E (metadata_prefix ++ id) = true ->
  validateConfig E (JObj [("url", JStr (metadata_prefix ++ id))]) =
    Some (mkConfig (metadata_prefix ++ id)) /\
  downloadFiles E sourceId (JObj [("url", JStr (metadata_prefix ++ id))])
    outputDir fileFilter w =
    (Throw (Error "Invalid Archive.org URL"), w).
Proof. apply downloadFiles_metadata_url. Qed.

Lemma downloadFiles_rejects_metadata_urls_witness :
  validateConfig Sample.calm
    (JObj [("url", JStr (metadata_prefix ++ "kuwaitalyawm"))]) =
    Some (mkConfig (metadata_prefix ++ "kuwaitalyawm")) /\
  downloadFiles Sample.calm "src1"
    (JObj [("url", JStr (metadata_prefix ++ "kuwaitalyawm"))])
    "./downloads" None Sample.empty_world =
    (Throw (Error "Invalid Archive.org URL"), Sample.empty_world).
Proof.
  apply (downloadFiles_rejects_metadata_urls Sample.calm "kuwaitalyawm"
           "src1" "./downloads" None Sample.empty_world);
    [discriminate|reflexivity|reflexivity].
Defined.

(** ** The earlier batch functions *)

Section LegacyFacts.

Variable E : Env.

Lemma bindM_ok {S A B : Type} (m : M S A) (f : A -> M S B) (s s' : S)
    (a : A) :
  m s = (Ok a, s') -> bindM m f s = f a s'.
Proof. intros H. unfold bindM. now rewrite H. Qed.

Lemma bindM_throw {S A B : Type} (m : M S A) (f : A -> M S B) (s s' : S)
    (e : exn) :
  m s = (Throw e, s') -> bindM m f s = (Throw e, s').
Proof. intros H. unfold bindM. now rewrite H. Qed.

Lemma for_of_cons_ok {S A : Type} (body : A -> M S unit) (x : A)
    (l : list A) (s s1 : S) :
  body x s = (Ok tt, s1) -> for_of (x :: l) body s = for_of l body s1.
Proof. intros H. cbn [for_of]. unfold bindM. now rewrite H. Qed.

Lemma download_one_from_url_step (outputDir : string)
    (archiveData : ArchiveResponse) (total : nat) (file : File)
    (w : World) (l : Locals) :
  exists w' l',
    download_one_from_url E outputDir archiveData total file (w, l) =
      (Ok tt, (w', l')) /\
    same_store w w' /\
    transfers w' =
      (transfers w ++
       [(getDownloadUrl archiveData (name file),
         legacy_path outputDir file)])%list /\
    arrays l' =
      if transfer_ok E (List.length (transfers w))
           (getDownloadUrl archiveData (name file))
           (legacy_path outputDir file)
      then mkDownloadResult
             (successful (arrays l) ++ [legacy_path outputDir file])
             (failed (arrays l))
      else mkDownloadResult (successful (arrays l))
             (failed (arrays l) ++ [name file]).
Proof.
  unfold download_one_from_url, bindM, try_catch, zoom, push_successful,
    push_failed, gets, logger, modify, downloadFile, stream_to_file,
    try_catch, bindM, logger, modify, throw, same_store.
  cbn [fst snd creates uuids document transfers minted log documentSource
       arrays documentId successful failed].
  destruct (transfer_ok E _ _ _);
    cbn [fst snd creates uuids document transfers minted log documentSource
         arrays documentId successful failed];
    eexists; eexists; (split; [reflexivity|]);
    cbn [fst snd creates uuids document transfers minted log documentSource
         arrays documentId successful failed];
    repeat split; reflexivity.
Qed.

Lemma download_one_of_many_step (outputDir : string)
    (archiveData : ArchiveResponse) (file : File) (w : World)
    (acc : list string) :
  exists w',
    download_one_of_many E outputDir archiveData file (w, acc) =
      (Ok tt,
       (w',
        if transfer_ok E (List.length (transfers w))
             (getDownloadUrl archiveData (name file))
             (legacy_path outputDir file)
        then (acc ++ [legacy_path outputDir file])%list
        else acc)) /\
    transfers w' =
      (transfers w ++
       [(getDownloadUrl archiveData (name file),
         legacy_path outputDir file)])%list.
Proof.
  unfold download_one_of_many, bindM, try_catch, beside, logger, modify,
    downloadFile, stream_to_file, try_catch, bindM, logger, modify, throw.
  cbn [fst snd creates uuids document transfers minted log documentSource].
  destruct (transfer_ok E _ _ _);
    cbn [fst snd creates uuids document transfers minted log documentSource];
    eexists; split; reflexivity.
Qed.

(** The loop of [downloadFilesFromUrl]: every file lands in one of the
    two lists. *)
Lemma legacy_loop (outputDir : string) (archiveData : ArchiveResponse)
    (total : nat) (selected : list File) :
  forall (w : World) (l : Locals),
  exists w' l',
    for_of selected (download_one_from_url E outputDir archiveData total)
      (w, l) = (Ok tt, (w', l')) /\
    same_store w w' /\
    List.length (transfers w') =
      List.length (transfers w) + List.length selected /\
    List.length (successful (arrays l')) + List.length (failed (arrays l')) =
      List.length (successful (arrays l)) + List.length (failed (arrays l)) +
      List.length selected /\
    incl (failed (arrays l'))
      (failed (arrays l) ++ map name selected) /\
    incl (successful (arrays l'))
      (successful (arrays l) ++
       map (legacy_path outputDir) selected).
Proof.
  induction selected as [|file rest0 IH]; intros w l.
  - exists w, l. simpl. rewrite !app_nil_r, !Nat.add_0_r.
    unfold same_store. repeat split; auto using incl_refl.
  - destruct (download_one_from_url_step outputDir archiveData total file w l)
      as (w1 & l1 & Hone & Hst & Htr & Harr).
    destruct (IH w1 l1) as (w2 & l2 & Hrest & Hst2 & Htr2 & Hcount & Hf & Hs).
    exists w2, l2. cbn [for_of]. unfold bindM at 1. rewrite Hone.
    split; [exact Hrest|].
    assert (Hl1 :
      List.length (successful (arrays l1)) + List.length (failed (arrays l1))
      = S (List.length (successful (arrays l)) +
           List.length (failed (arrays l))) /\
      incl (failed (arrays l1)) (failed (arrays l) ++ [name file]) /\
      incl (successful (arrays l1))
        (successful (arrays l) ++ [legacy_path outputDir file])).
    { rewrite Harr. destruct (transfer_ok E _ _ _); cbn [successful failed];
        rewrite ?length_app; simpl; repeat split;
        auto using incl_refl, incl_appl; lia. }
    destruct Hl1 as (Hc1 & Hf1 & Hs1).
    unfold same_store in *.
    destruct Hst as (? & ? & ? & ? & ?). destruct Hst2 as (? & ? & ? & ? & ?).
    repeat split; try congruence.
    + rewrite Htr2, Htr, length_app. simpl. lia.
    + rewrite Hcount, Hc1. simpl. lia.
    + intros x Hx. apply Hf in Hx. apply in_app_or in Hx as [Hx|Hx].
      * apply Hf1 in Hx. apply in_app_or in Hx as [Hx|[<-|[]]].
        -- apply in_or_app. now left.
        -- apply in_or_app. right. now left.
      * apply in_or_app. right. now right.
    + intros x Hx. apply Hs in Hx. apply in_app_or in Hx as [Hx|Hx].
      * apply Hs1 in Hx. apply in_app_or in Hx as [Hx|[<-|[]]].
        -- apply in_or_app. now left.
        -- apply in_or_app. right. now left.
      * apply in_or_app. right. now right.
Qed.

(** The two loops side by side: what [downloadMultipleFiles] collects is
    what [downloadFilesFromUrl] calls successful. *)
Lemma legacy_loops_agree (outputDir : string) (archiveData : ArchiveResponse)
    (total : nat) (selected : list File) :
  forall (wa wb : World) (acc : list string) (l : Locals),
    transfers wa = transfers wb ->
    acc = successful (arrays l) ->
    exists wa' wb' l',
      for_of selected (download_one_of_many E outputDir archiveData)
        (wa, acc) = (Ok tt, (wa', successful (arrays l'))) /\
      for_of selected (download_one_from_url E outputDir archiveData total)
        (wb, l) = (Ok tt, (wb', l')).
Proof.
  induction selected as [|file rest0 IH]; intros wa wb acc l Ht ->.
  - exists wa, wb, l. split; reflexivity.
  - destruct (download_one_of_many_step outputDir archiveData file wa
                (successful (arrays l))) as (wa1 & Ha & Hta).
    destruct (download_one_from_url_step outputDir archiveData total file wb l)
      as (wb1 & l1 & Hb & _ & Htb & Harr).
    rewrite Ht in Ha.
    destruct (IH wa1 wb1
                (if transfer_ok E (List.length (transfers wb))
                      (getDownloadUrl archiveData (name file))
                      (legacy_path outputDir file)
                 then (successful (arrays l) ++
                       [legacy_path outputDir file])%list
                 else successful (arrays l)) l1)
      as (wa2 & wb2 & l2 & Ha2 & Hb2).
    + now rewrite Hta, Htb, Ht.
    + rewrite Harr. now destruct (transfer_ok E _ _ _).
    + exists wa2, wb2, l2.
      rewrite (for_of_cons_ok _ _ _ _ _ Ha), (for_of_cons_ok _ _ _ _ _ Hb).
      split; assumption.
Qed.

End LegacyFacts.

(** X22.  Once the snapshot has arrived, [downloadFilesFromUrl] never rejects
    and never touches the store; every selected file ends up in
    exactly one of the two lists, by its path under the output
    directory when its transfer completed and by its name when not. *)
Theorem downloadFilesFromUrl_partitions (E : Env) (u outputDir : string)
    (fileFilter : option (File -> bool)) (w w1 : World)
    (archiveData : ArchiveResponse) :
  getArchiveData E u w = (Ok archiveData, w1) ->
  exists r w',
    downloadFilesFromUrl E u outputDir fileFilter w = (Ok r, w') /\
    same_store w w' /\
    List.length (successful r) + List.length (failed r) =
      List.length (selected_files fileFilter archiveData) /\
    incl (failed r) (map name (selected_files fileFilter archiveData)) /\
    incl (successful r)
      (map (legacy_path outputDir)
         (selected_files fileFilter archiveData)).
Proof.
  intros Hg.
  assert (w1 = w) as ->.
  { destruct (getArchiveData_cases E u w)
      as [[_ Hr]|[(id & _ & _ & Hr)|[(id & b & _ & _ & _ & Hr)
         |(id & b & sn & _ & _ & _ & Hr)]]];
      rewrite Hr in Hg; now inversion Hg. }
  unfold downloadFilesFromUrl. unfold bindM at 1. rewrite Hg.
  fold (selected_files fileFilter archiveData).
  unfold bindM at 1. cbn [logger modify].
  match goal with
  | |- context [for_of ?sel (download_one_from_url _ _ _ ?n) (?w0, ?l0)] =>
      destruct (legacy_loop E outputDir archiveData n sel w0 l0)
        as (w2 & l2 & Hloop & Hst & _ & Hcount & Hf & Hs)
  end.
  rewrite Hloop. unfold bindM, logger, modify, ret.
  eexists. eexists. split; [reflexivity|].
  unfold same_store in *. cbn in Hst, Hcount, Hf, Hs |- *.
  repeat split; try tauto; assumption.
Qed.

Lemma downloadFilesFromUrl_partitions_witness :
  exists r w',
    downloadFilesFromUrl Sample.second_transfer_fails
      "https://archive.org/details/foo" "./downloads" None
      Sample.empty_world = (Ok r, w') /\
    same_store Sample.empty_world w' /\
    List.length (successful r) + List.length (failed r) =
      List.length (selected_files None More.three_snapshot) /\
    incl (failed r) (map name (selected_files None More.three_snapshot)) /\
    incl (successful r)
      (map (legacy_path "./downloads")
         (selected_files None More.three_snapshot)).
Proof.
  apply (downloadFilesFromUrl_partitions Sample.second_transfer_fails
           "https://archive.org/details/foo" "./downloads" None
           Sample.empty_world Sample.empty_world More.three_snapshot).
  vm_compute. reflexivity.
Defined.

(** X23.  [downloadMultipleFiles] returns what [downloadFilesFromUrl] reports
    as successful for the same URL, filter and directory, and rejects
    when and as that one does. *)
Theorem downloadMultipleFiles_agrees (E : Env) (u outputDir : string)
    (fileFilter : File -> bool) (w : World) :
  fst (downloadMultipleFiles E u fileFilter outputDir w) =
  match fst (downloadFilesFromUrl E u outputDir (Some fileFilter) w) with
  | Ok r => Ok (successful r)
  | Throw e => Throw e
  end.
Proof.
  unfold downloadMultipleFiles, downloadFilesFromUrl.
  destruct (getArchiveData E u w) as [[archiveData|e] w1] eqn:Hg.
  - rewrite !(bindM_ok _ _ _ _ _ Hg).
    unfold bindM at 1 3. cbn [logger modify].
    match goal with
    | |- context [for_of ?sel (download_one_of_many _ _ _) (?wa, ?acc)] =>
        match goal with
        | |- context [for_of _ (download_one_from_url _ _ _ ?n) (?wb, ?l)] =>
            destruct (legacy_loops_agree E outputDir archiveData n sel
                        wa wb acc l eq_refl eq_refl)
              as (wa' & wb' & l' & Ha & Hb)
        end
    end.
    rewrite Ha, Hb. reflexivity.
  - now rewrite !(bindM_throw _ _ _ _ _ Hg).
Qed.

(** ** The routes *)

Section RouteFacts.

Variable E : Env.

Lemma bodySchema_type (v : option json) (parsed : CreateBody) :
  bodySchema v = Some parsed -> body_type parsed = "archive.org files".
Proof.
  unfold bodySchema, Zod.object. destruct v as [[| | | | |o]|]; try discriminate.
  unfold ZodMore.enum, ZodMore.unknown, Zod.refine, Zod.bind.
  destruct (Zod.string (field "type" o)) as [t|]; [|discriminate].
  destruct (existsb (String.eqb t) ["archive.org files"]) eqn:Et;
    [|discriminate].
  intros H. injection H as <-. cbn [body_type].
  simpl in Et. rewrite orb_false_r in Et. now apply String.eqb_eq in Et.
Qed.

(** The ways the create route can go, by what [createSource] does. *)
Lemma post_datasource_create_cases (body : json) (w : World) :
  exists res w',
    post_datasource_create E body w = (Ok res, w') /\
    ((res_status res = 201 /\
      exists created,
        res_json res = Created created /\
        documentSource w' = (documentSource w ++ [created])%list) \/
     (res_status res = 409 /\ w' = w /\
      exists m id, res_json res = Conflict m (Some id)) \/
     (res_status res = 400 /\ same_store w w' /\
      res_json res <> Failure "Unsupported data source type")).
Proof.
  unfold post_datasource_create.
  destruct (bodySchema (Some body)) as [parsed|] eqn:Hb.
  - rewrite (bodySchema_type _ _ Hb). cbn [String.eqb Ascii.eqb Bool.eqb].
    change (String.eqb "archive.org files" "archive.org files") with true.
    cbv iota. unfold try_catch, bindM, createSource_unknown.
    destruct (body_config parsed) as [config|].
    + destruct (createSource_cases E config w)
        as [[_ Hr]|[(cfg & ex & others & _ & _ & Hr)|(cfg & _ & _ & Hr)]];
        rewrite Hr.
      * eexists. eexists. split; [reflexivity|]. right. right.
        unfold same_store. cbn. repeat split; auto. discriminate.
      * eexists. eexists. split; [reflexivity|]. right. left.
        cbn. repeat split; auto. now exists "Data source already exists",
          (src_id ex).
      * eexists. eexists. split; [reflexivity|]. left.
        cbn. split; [reflexivity|]. eexists. split; reflexivity.
    + eexists. eexists. split; [reflexivity|]. right. right.
      unfold same_store. cbn. repeat split; auto. discriminate.
  - eexists. eexists. split; [reflexivity|]. right. right.
    unfold same_store. cbn. repeat split; auto. discriminate.
Qed.

End RouteFacts.

(** X24.  The create route always answers: with 201 and the new data source,
    which is then the one row added to the store; with 409 and the id
    of the existing data source, the world untouched; or with 400, the
    store untouched.  The answer for an unsupported type is never
    given: the body schema admits one type only. *)
Theorem post_datasource_create_answers (E : Env) (body : json) (w : World) :
  exists res w',
    post_datasource_create E body w = (Ok res, w') /\
    ((res_status res = 201 /\
      exists created,
        res_json res = Created created /\
        documentSource w' = (documentSource w ++ [created])%list) \/
     (res_status res = 409 /\ w' = w /\
      exists m id, res_json res = Conflict m (Some id)) \/
     (res_status res = 400 /\ same_store w w' /\
      res_json res <> Failure "Unsupported data source type")).
Proof. apply post_datasource_create_cases. Qed.

(** X25.  Posting a body with the supported type and a valid config whose URL
    is registered already is answered with 409, the message of the
    duplicate and the id of a data source that is stored for the URL;
    the world stays as it was. *)
Theorem post_datasource_create_conflict (E : Env) (o : list (string * json))
    (config : json) (cfg : Config) (w : World) :
  field "type" o = Some (JStr "archive.org files") ->
  field "config" o = Some config ->
  validateConfig E config = Some cfg ->
  registered (url cfg) w <> [] ->
  exists existing,
    In existing (registered (url cfg) w) /\
    post_datasource_create E (JObj o) w =
      (Ok (mkResponse 409
             (Conflict "Data source already exists"
                (Some (src_id existing)))),
       w).
Proof.
  intros Ht Hcfg Hv Hr.
  unfold post_datasource_create, bodySchema, Zod.object, ZodMore.enum,
    ZodMore.unknown, Zod.refine, Zod.bind, Zod.string.
  rewrite Ht, Hcfg. cbn [existsb String.eqb Ascii.eqb Bool.eqb orb body_type
                         body_config].
  change (String.eqb "archive.org files" "archive.org files") with true.
  cbv iota. unfold try_catch, bindM, createSource_unknown.
  destruct (createSource_cases E config w)
    as [[Hn _]|[(cfg' & ex & oth & Hc' & Hr' & H)|(cfg' & Hc' & Hr' & _)]].
  - rewrite Hv in Hn. discriminate.
  - rewrite Hv in Hc'. injection Hc' as <-.
    exists ex. split; [rewrite Hr'; now left|]. now rewrite H.
  - rewrite Hv in Hc'. injection Hc' as <-. contradiction.
Qed.

Lemma post_datasource_create_conflict_witness :
  exists existing,
    In existing
      (registered "https://archive.org/details/foo" More.registered_world) /\
    post_datasource_create Sample.calm
      (JObj [("type", JStr "archive.org files");
             ("config", Sample.details_config)])
      More.registered_world =
      (Ok (mkResponse 409
             (Conflict "Data source already exists"
                (Some (src_id existing)))),
       More.registered_world).
Proof.
  apply (post_datasource_create_conflict Sample.calm
           [("type", JStr "archive.org files");
            ("config", Sample.details_config)]
           Sample.details_config (mkConfig "https://archive.org/details/foo")
           More.registered_world);
    [reflexivity|reflexivity|reflexivity|discriminate].
Defined.

(** X15.  A data source that has just been registered is what the store
    returns for its id, provided no older row carries that id, and
    what the duplicate check finds for its URL. *)
Theorem createSource_then_find (E : Env) (config : json) (w w' : World)
    (created : DocumentSource) :
  createSource E config w = (Ok created, w') ->
  find (fun r => String.eqb (src_id r) (src_id created)) (documentSource w)
    = None ->
  documentSource_findUnique (src_id created) w' = (Ok (Some created), w') /\
  exists cfg,
    validateConfig E config = Some cfg /\
    Db.documentSource_findFirst "archive.org files" ["url"] (url cfg) w' =
      (Ok (Some created), w').
Proof.
  intros H Hfresh.
  destruct (createSource_cases E config w)
    as [[_ Hr]|[(cfg & ex & others & _ & _ & Hr)|(cfg & Hv & Hnone & Hr)]];
    rewrite Hr in H; inversion H; subst; clear H.
  cbn [src_id] in Hfresh. split.
  - unfold documentSource_findUnique, gets. cbn [documentSource src_id].
    rewrite (find_app_None _ _ _ Hfresh). cbn [find src_id].
    now rewrite String.eqb_refl.
  - exists cfg. split; [exact Hv|].
    unfold Db.documentSource_findFirst, gets. cbn [documentSource].
    rewrite find_filter_head, filter_app. fold (registered (url cfg) w).
    rewrite Hnone. destruct cfg as [u0]. cbn [filter app url].
    now rewrite source_matches_new.
Qed.

Lemma createSource_then_find_witness :
  documentSource_findUnique "row0" More.registered_world =
    (Ok (Some (mkDocumentSource "row0" "archive.org files"
                 (JObj [("url", JStr "https://archive.org/details/foo")]))),
     More.registered_world) /\
  exists cfg,
    validateConfig Sample.calm Sample.details_config = Some cfg /\
    Db.documentSource_findFirst "archive.org files" ["url"] (url cfg)
      More.registered_world =
      (Ok (Some (mkDocumentSource "row0" "archive.org files"
                   (JObj [("url", JStr "https://archive.org/details/foo")]))),
       More.registered_world).
Proof.
  exact (createSource_then_find Sample.calm Sample.details_config
           Sample.empty_world More.registered_world
           (mkDocumentSource "row0" "archive.org files"
              (JObj [("url", JStr "https://archive.org/details/foo")]))
           eq_refl eq_refl).
Defined.

(** X26.  For a stored archive source whose config is valid, whose snapshot
    arrives and whose document rows can be created, the task route
    answers 200 whatever the transfers do, and has requested exactly
    the files of the snapshot whose names end in [.pdf] or [.txt]. *)
Theorem post_task_datasource_downloads_pdf_txt (E : Env)
    (is_uuid : string -> bool) (rawId : string) (w w1 : World)
    (found : DocumentSource) (cfg : Config) (archiveData : ArchiveResponse) :
  is_uuid rawId = true ->
  find (fun r => String.eqb (src_id r) rawId) (documentSource w) = Some found ->
  src_type found = "archive.org files" ->
  validateConfig E (src_config found) = Some cfg ->
  getArchiveData E (url cfg) w = (Ok archiveData, w1) ->
  (forall n, document_create_ok E n = true) ->
  exists w',
    post_task_datasource E is_uuid rawId w =
      (Ok (Some (mkResponse 200 (Message "Download task finished"))), w') /\
    map fst (transfers w') =
      (map fst (transfers w) ++
       map (fun f => getDownloadUrl archiveData (name f))
         (filter pdf_or_txt (files archiveData)))%list /\
    Forall (fun f => endsWith (name f) ".pdf" = true \/
                     endsWith (name f) ".txt" = true)
      (filter pdf_or_txt (files archiveData)).
Proof.
  intros Hid Hfind Hty Hv Hg Hs.
  destruct (downloadFiles_served E (src_id found) (src_config found) cfg
              "./downloads" (Some pdf_or_txt) w w1 archiveData Hv Hg Hs)
    as (r & w' & Hd & _ & _ & _ & Ht).
  exists w'. unfold post_task_datasource. rewrite Hid.
  unfold documentSource_findUnique, gets. unfold bindM at 1.
  rewrite Hfind, Hty.
  change (String.eqb "archive.org files" "archive.org files") with true.
  cbv iota. rewrite (bindM_ok _ _ _ _ _ Hd). unfold ret.
  repeat split; auto.
  apply Forall_forall. intros f Hf. apply filter_In in Hf as [_ Hf].
  unfold pdf_or_txt in Hf. now apply orb_prop in Hf.
Qed.

Lemma post_task_datasource_downloads_pdf_txt_witness :
  exists w',
    post_task_datasource Sample.second_transfer_fails (fun _ => true) "row0"
      More.registered_world =
      (Ok (Some (mkResponse 200 (Message "Download task finished"))), w') /\
    map fst (transfers w') =
      (map fst (transfers More.registered_world) ++
       map (fun f => getDownloadUrl More.three_snapshot (name f))
         (filter pdf_or_txt (files More.three_snapshot)))%list /\
    Forall (fun f => endsWith (name f) ".pdf" = true \/
                     endsWith (name f) ".txt" = true)
      (filter pdf_or_txt (files More.three_snapshot)).
Proof.
  apply (post_task_datasource_downloads_pdf_txt Sample.second_transfer_fails
           (fun _ => true) "row0" More.registered_world More.registered_world
           (mkDocumentSource "row0" "archive.org files"
              (JObj [("url", JStr "https://archive.org/details/foo")]))
           (mkConfig "https://archive.org/details/foo") More.three_snapshot);
    [reflexivity|reflexivity|reflexivity|reflexivity|vm_compute; reflexivity
    |intros n; reflexivity].
Defined.

(** X27.  A metadata URL goes through the create route, which answers 201,
    and the task route then rejects for the new source with the
    invalid-URL error instead of answering: such a source can be
    registered and never downloaded. *)
Theorem metadata_source_never_downloads (E : Env) (is_uuid : string -> bool)
    (id : string) (w : World) :
  id <> "" -> JsString.lacks "/" id = true ->
  url_parses E (metadata_prefix ++ id) = true ->
  registered (metadata_prefix ++ id) w = [] ->
  is_uuid (store_id E (minted w)) = true ->
  find (fun r => String.eqb (src_id r) (store_id E (minted w)))
    (documentSource w) = None ->
  exists created w1,
    post_datasource_create E
      (JObj [("type", JStr "archive.org files");
             ("config", JObj [("url", JStr (metadata_prefix ++ id))])]) w =
      (Ok (mkResponse 201 (Created created)), w1) /\
    post_task_datasource E is_uuid (src_id created) w1 =
      (Throw (Error "Invalid Archive.org URL"), w1).
Proof.
  intros Hne Hid Hp Hnone Huuid Hfresh.
  destruct (downloadFiles_metadata_url E id (store_id E (minted w))
              "./downloads" (Some pdf_or_txt)
              (mkWorld
                 (documentSource w ++
                  [mkDocumentSource (store_id E (minted w))
                     "archive.org files"
                     (config_json (mkConfig (metadata_prefix ++ id)))])
                 (document w) (S (minted w)) (creates w) (uuids w)
                 (transfers w) (log w)) Hne Hid Hp) as [Hv Hd].
  destruct (createSource_cases E
              (JObj [("url", JStr (metadata_prefix ++ id))]) w)
    as [[Hn _]|[(cfg & ex & oth & Hc & Hr & _)|(cfg & Hc & _ & Hcreate)]].
  - rewrite Hv in Hn. discriminate.
  - assert (cfg = mkConfig (metadata_prefix ++ id)) as -> by congruence.
    cbn [url] in Hr. rewrite Hnone in Hr. discriminate.
  - assert (cfg = mkConfig (metadata_prefix ++ id)) as -> by congruence.
    eexists. eexists. split.
    + unfold post_datasource_create. cbn [bodySchema].
      unfold bodySchema, Zod.object, ZodMore.enum, ZodMore.unknown,
        Zod.refine, Zod.bind, Zod.string.
      cbn [field String.eqb Ascii.eqb Bool.eqb existsb orb body_type
           body_config].
      change (String.eqb "archive.org files" "archive.org files") with true.
      cbv iota. unfold try_catch, createSource_unknown.
      rewrite (bindM_ok _ _ _ _ _ Hcreate). reflexivity.
    + unfold post_task_datasource. cbn [src_id]. rewrite Huuid.
      unfold documentSource_findUnique, gets. unfold bindM at 1.
      cbn [documentSource].
      rewrite (find_app_None _ _ _ Hfresh). cbn [find src_id src_type].
      rewrite String.eqb_refl.
      change (String.eqb "archive.org files" "archive.org files") with true.
      cbv iota. cbn [src_config src_id].
      unfold config_json in *. cbn [url src_type] in *.
      change (String.eqb "archive.org files" "archive.org files") with true.
      cbv iota.
      now rewrite (bindM_throw _ _ _ _ _ Hd).
Qed.

Lemma metadata_source_never_downloads_witness :
  exists created w1,
    post_datasource_create Sample.calm
      (JObj [("type", JStr "archive.org files");
             ("config", JObj [("url", JStr (metadata_prefix ++ "foo"))])])
      Sample.empty_world =
      (Ok (mkResponse 201 (Created created)), w1) /\
    post_task_datasource Sample.calm (fun _ => true) (src_id created) w1 =
      (Throw (Error "Invalid Archive.org URL"), w1).
Proof.
  apply (metadata_source_never_downloads Sample.calm (fun _ => true) "foo"
           Sample.empty_world);
    [discriminate|reflexivity|reflexivity|reflexivity|reflexivity
    |reflexivity].
Defined.

(** ** The server environment *)

Section EnvironmentFacts.

Import ServerEnvironment.

Lemma field_as_object (k : string) (vars : process_env) :
  field k (map (fun kv => (fst kv, JStr (snd kv))) vars) =
  option_map JStr (lookup k vars).
Proof.
  induction vars as [|[k' v] vars IH]; simpl; [reflexivity|].
  destruct (String.eqb k' k); [reflexivity|exact IH].
Qed.

Lemma envSchema_as_object (vars : process_env) :
  envSchema (Some (as_object vars)) =
  match lookup "DATABASE_URL" vars with
  | Some db =>
      if Nat.leb 1 (String.length db) then
        match lookup "NODE_ENV" vars with
        | None => Some (mkServerEnv "development" (Some db))
        | Some v =>
            if existsb (String.eqb v) node_envs
            then Some (mkServerEnv v (Some db))
            else None
        end
      else None
  | None => None
  end.
Proof.
  unfold envSchema, as_object, Zod.object. rewrite !field_as_object.
  unfold ZodMore.default, ZodMore.enum, ZodMore.min, Zod.refine, Zod.bind,
    Zod.string, node_envs.
  destruct (lookup "NODE_ENV" vars) as [v|]; cbn [option_map].
  - destruct (existsb (String.eqb v) _);
      destruct (lookup "DATABASE_URL" vars) as [db|]; cbn [option_map];
      try reflexivity; now destruct (Nat.leb 1 (String.length db)).
  - destruct (lookup "DATABASE_URL" vars) as [db|]; cbn [option_map];
      try reflexivity; now destruct (Nat.leb 1 (String.length db)).
Qed.

End EnvironmentFacts.

(** X28.  Without the skip flag the module loads exactly when [DATABASE_URL]
    is set and not empty and [NODE_ENV] is unset or one of
    [development], [test] and [production]; the exported value then
    carries that URL, and [development] for an unset [NODE_ENV].  In
    every other case loading throws the one fixed error. *)
Theorem env_validated (vars : ServerEnvironment.process_env)
    (e : ServerEnvironment.ServerEnv) :
  ServerEnvironment.lookup "SKIP_ENV_VALIDATION" vars <> Some "1" ->
  (ServerEnvironment.env vars = Ok e <->
   exists db,
     ServerEnvironment.lookup "DATABASE_URL" vars = Some db /\ db <> "" /\
     ServerEnvironment.DATABASE_URL e = Some db /\
     match ServerEnvironment.lookup "NODE_ENV" vars with
     | None => ServerEnvironment.NODE_ENV e = "development"
     | Some v =>
         ServerEnvironment.NODE_ENV e = v /\
         In v ServerEnvironment.node_envs
     end) /\
  (ServerEnvironment.env vars =
     Throw (Error "Invalid server environment variables") \/
   exists e', ServerEnvironment.env vars = Ok e').
Proof.
  intros Hskip. unfold ServerEnvironment.env.
  assert (Hs : ServerEnvironment.skips vars = false).
  { unfold ServerEnvironment.skips.
    destruct (ServerEnvironment.lookup "SKIP_ENV_VALIDATION" vars) as [v|];
      [|reflexivity].
    apply String.eqb_neq. intros ->. now apply Hskip. }
  rewrite Hs, envSchema_as_object.
  destruct (ServerEnvironment.lookup "DATABASE_URL" vars) as [db|].
  - destruct db as [|c db]; cbn [String.length Nat.leb].
    + split; [|now left].
      split; [discriminate|]. intros (db & H & Hne & _).
      injection H as <-. now contradiction Hne.
    + destruct (ServerEnvironment.lookup "NODE_ENV" vars) as [v|].
      * destruct (existsb (String.eqb v) ServerEnvironment.node_envs) eqn:Ev.
        -- split; [|right; eauto]. split.
           ++ intros H. injection H as <-. exists (String c db).
              repeat split; auto; [discriminate|].
              apply existsb_exists in Ev as (x & Hin & Hx).
              apply String.eqb_eq in Hx. now subst x.
           ++ intros (db' & H & _ & Hd & Hn & _). injection H as <-.
              destruct e as [n d]. cbn in Hd, Hn. now subst.
        -- split; [|now left]. split; [discriminate|].
           intros (db' & _ & _ & _ & _ & Hin).
           assert (existsb (String.eqb v) ServerEnvironment.node_envs = true)
             as Ht; [|rewrite Ht in Ev; discriminate].
           apply existsb_exists. exists v. split; [exact Hin|].
           apply String.eqb_refl.
      * split; [|right; eauto]. split.
        -- intros H. injection H as <-. exists (String c db).
           repeat split; auto. discriminate.
        -- intros (db' & H & _ & Hd & Hn). injection H as <-.
           destruct e as [n d]. cbn in Hd, Hn. now subst.
  - split; [|now left]. split; [discriminate|].
    intros (db & H & _). discriminate H.
Qed.

Lemma env_validated_witness :
  (ServerEnvironment.env [("DATABASE_URL", "postgres://db")] =
     Ok (ServerEnvironment.mkServerEnv "development" (Some "postgres://db"))
   <->
   exists db,
     ServerEnvironment.lookup "DATABASE_URL" [("DATABASE_URL", "postgres://db")]
       = Some db /\ db <> "" /\
     ServerEnvironment.DATABASE_URL
       (ServerEnvironment.mkServerEnv "development" (Some "postgres://db"))
       = Some db /\
     match ServerEnvironment.lookup "NODE_ENV"
             [("DATABASE_URL", "postgres://db")] with
     | None =>
         ServerEnvironment.NODE_ENV
           (ServerEnvironment.mkServerEnv "development"
              (Some "postgres://db")) = "development"
     | Some v =>
         ServerEnvironment.NODE_ENV
           (ServerEnvironment.mkServerEnv "development"
              (Some "postgres://db")) = v /\
         In v ServerEnvironment.node_envs
     end) /\
  (ServerEnvironment.env [("DATABASE_URL", "postgres://db")] =
     Throw (Error "Invalid server environment variables") \/
   exists e',
     ServerEnvironment.env [("DATABASE_URL", "postgres://db")] = Ok e').
Proof.
  apply (env_validated [("DATABASE_URL", "postgres://db")]
           (ServerEnvironment.mkServerEnv "development"
              (Some "postgres://db"))).
  discriminate.
Defined.

(** X29.  Skipping the validation changes nothing for an environment that
    passes it: what loads with validation loads to the same value with
    the skip flag set in front. *)
Theorem env_skip_agrees (vars : ServerEnvironment.process_env)
    (e : ServerEnvironment.ServerEnv) :
  ServerEnvironment.lookup "SKIP_ENV_VALIDATION" vars <> Some "1" ->
  ServerEnvironment.env vars = Ok e ->
  ServerEnvironment.env (("SKIP_ENV_VALIDATION", "1") :: vars) = Ok e.
Proof.
  intros Hskip H.
  unfold ServerEnvironment.env in *.
  assert (Hs : ServerEnvironment.skips vars = false).
  { unfold ServerEnvironment.skips.
    destruct (ServerEnvironment.lookup "SKIP_ENV_VALIDATION" vars) as [v|];
      [|reflexivity].
    apply String.eqb_neq. intros ->. now apply Hskip. }
  rewrite Hs, envSchema_as_object in H.
  change (ServerEnvironment.skips (("SKIP_ENV_VALIDATION", "1") :: vars))
    with true. cbv iota.
  change (ServerEnvironment.lookup "NODE_ENV"
            (("SKIP_ENV_VALIDATION", "1") :: vars))
    with (ServerEnvironment.lookup "NODE_ENV" vars).
  change (ServerEnvironment.lookup "DATABASE_URL"
            (("SKIP_ENV_VALIDATION", "1") :: vars))
    with (ServerEnvironment.lookup "DATABASE_URL" vars).
  destruct (ServerEnvironment.lookup "DATABASE_URL" vars) as [db|];
    [|discriminate].
  destruct (Nat.leb 1 (String.length db)); [|discriminate].
  destruct (ServerEnvironment.lookup "NODE_ENV" vars) as [v|].
  - destruct (existsb _ _); [exact H|discriminate].
  - exact H.
Qed.

Lemma env_skip_agrees_witness :
  ServerEnvironment.env
    [("SKIP_ENV_VALIDATION", "1"); ("NODE_ENV", "test");
     ("DATABASE_URL", "postgres://db")] =
  Ok (ServerEnvironment.mkServerEnv "test" (Some "postgres://db")).
Proof.
  apply (env_skip_agrees
           [("NODE_ENV", "test"); ("DATABASE_URL", "postgres://db")]
           (ServerEnvironment.mkServerEnv "test" (Some "postgres://db")));
    [discriminate|reflexivity].
Defined.

(** ** Which sizes become NaN *)

Section NaNFacts.

Lemma shr_1_nonneg (r : shr_record) :
  (0 <= shr_m r)%Z -> (0 <= shr_m (shr_1 r))%Z.
Proof.
  destruct r as [m b s]. simpl.
  destruct m as [|[p|p|]|[p|p|]]; simpl; intros H; lia.
Qed.

Lemma iter_shr_1_nonneg (p : positive) (r : shr_record) :
  (0 <= shr_m r)%Z -> (0 <= shr_m (iter_pos shr_1 p r))%Z.
Proof.
  revert r. induction p as [p IH|p IH|]; intros r H; simpl.
  - apply IH. apply IH. now apply shr_1_nonneg.
  - apply IH. now apply IH.
  - now apply shr_1_nonneg.
Qed.

Lemma shr_fexp_nonneg (prec emax m e : Z) (l : location) :
  (0 <= m)%Z -> (0 <= shr_m (fst (shr_fexp prec emax m e l)))%Z.
Proof.
  intros H. unfold shr_fexp, shr.
  assert (H0 : (0 <= shr_m (shr_record_of_loc m l))%Z)
    by (destruct l as [|[]]; exact H).
  destruct (fexp prec emax (Zdigits2 m + e) - e)%Z; simpl; auto.
  now apply iter_shr_1_nonneg.
Qed.

Lemma round_nearest_even_nonneg (m : Z) (l : location) :
  (0 <= m)%Z -> (0 <= round_nearest_even m l)%Z.
Proof.
  intros H. destruct l as [|[]]; simpl; try lia.
  destruct (Z.even m); lia.
Qed.

Lemma binary_round_aux_not_nan (prec emax : Z) (sx : bool) (mx ex : Z)
    (lx : location) :
  (0 <= mx)%Z -> binary_round_aux prec emax sx mx ex lx <> S754_nan.
Proof.
  intros H. unfold binary_round_aux.
  pose proof (shr_fexp_nonneg prec emax mx ex lx H) as H1.
  destruct (shr_fexp prec emax mx ex lx) as [mrs' e']. cbn [fst] in H1.
  pose proof (shr_fexp_nonneg prec emax
                (round_nearest_even (shr_m mrs') (loc_of_shr_record mrs'))
                e' loc_Exact
                (round_nearest_even_nonneg _ _ H1)) as H2.
  destruct (shr_fexp prec emax _ e' loc_Exact) as [mrs'' e''].
  cbn [fst] in H2.
  destruct (shr_m mrs'') as [|m|m]; [discriminate| |lia].
  destruct (Z.leb e'' (emax - prec)); discriminate.
Qed.

Lemma of_Z_not_nan (z : Z) : of_Z z <> NaN.
Proof.
  unfold of_Z, binary_normalize, NaN.
  destruct z as [|m|m]; [discriminate| |];
    unfold binary_round;
    destruct (shl_align _ _ _) as [mz ez];
    apply binary_round_aux_not_nan; lia.
Qed.

Lemma parseInt_radix_ten (s : string) :
  parseInt s 10 =
  match leading_digits 10 (strip_sign (trim_start s)) with
  | [] => NaN
  | ds =>
      if Z.eqb (digits_value 10 ds) 0
      then S754_zero (is_negative (trim_start s))
      else of_Z (if is_negative (trim_start s)
                 then Z.opp (digits_value 10 ds)
                 else digits_value 10 ds)
  end.
Proof.
  unfold parseInt, strip_sign, is_negative.
  destruct (trim_start s) as [|[[] [] [] [] [] [] [] []] r]; reflexivity.
Qed.

End NaNFacts.

(** X10.  A [size] given as a string becomes NaN exactly when, the leading
    white space and one sign apart, the string does not begin with a
    decimal digit. *)
Theorem sizeSchema_nan_iff (s : string) :
  sizeSchema (Some (JStr s)) = Some (Some NaN) <->
  leading_digits 10 (strip_sign (trim_start s)) = [].
Proof.
  rewrite sizeSchema_string, parseInt_radix_ten.
  destruct (leading_digits 10 (strip_sign (trim_start s))) as [|d ds].
  - split; reflexivity.
  - split; [|discriminate]. intros H. exfalso.
    injection H as H.
    destruct (Z.eqb (digits_value 10 (d :: ds)) 0); [discriminate H|].
    now apply of_Z_not_nan in H.
Qed.

Lemma sizeSchema_nan_iff_witness :
  sizeSchema (Some (JStr "  -abc")) = Some (Some NaN).
Proof.
  apply (proj2 (sizeSchema_nan_iff "  -abc")). reflexivity.
Defined.

(** ** Listing and downloading *)


